(** * xknx: the request/response transaction and the date/time broadcast

    A shallow embedding of

      - [xknx/io/request_response.py]  (class [RequestResponse]),
      - [xknx/devices/datetime.py]     (class [DateTime]),

    and the properties of them that the design document states.

    Python objects are mutable and exceptions do not roll mutations back, so
    every method is a function from the world to a result and the world
    after it; the world is kept when the result is an exception. *)

From Stdlib Require Import List String ZArith Lia Bool.
From stdpp Require Import base decidable.
Import ListNotations.
Local Open Scope string_scope.
Local Open Scope list_scope.

(** ** Results of (co)routines *)

Inductive Exn : Type :=
  | NotImplementedError   (* raise NotImplementedError(...) *)
  | TransportError        (* udpclient.send could not hand the frame over *)
  | CancelledError        (* asyncio.CancelledError thrown into a waiter *)
  | AttributeError        (* attribute access on an object without it *)
  | TypeError             (* raise TypeError() *)
  | UserError (code : nat) (* anything an overridden hook may raise *).

(** A call returns a value, raises, or (for a coroutine) is still suspended
    when the loop has nothing left to run. *)
Inductive Res (A : Type) : Type :=
  | Done (a : A)
  | Raise (e : Exn)
  | Blocked.
Arguments Done {A} a.
Arguments Raise {A} e.
Arguments Blocked {A}.

Definition M (S A : Type) : Type := S -> Res A * S.

Definition ret {S A} (a : A) : M S A := fun s => (Done a, s).

Definition bind {S A B} (m : M S A) (k : A -> M S B) : M S B :=
  fun s =>
    match m s with
    | (Done a, s') => k a s'
    | (Raise e, s') => (Raise e, s')
    | (Blocked, s') => (Blocked, s')
    end.

Definition raise {S A} (e : Exn) : M S A := fun s => (Raise e, s).
Definition modify {S} (f : S -> S) : M S unit := fun s => (Done tt, f s).
Definition gets {S A} (f : S -> A) : M S A := fun s => (Done (f s), s).

Notation "'do' x <- c ; k" := (bind c (fun x => k))
  (at level 10, x name, c at level 100, k at level 200).
Notation "c ;; k" := (bind c (fun _ => k))
  (at level 100, k at level 200, right associativity).

(** ** What [xknx.knxip] declares

    [ErrorCode], the service types and the body classes are imported from
    [xknx.knxip]; only their interface is used here. *)

Class KnxIp : Type := {
  ServiceType : Type;
  ErrorCode : Type;
  BodyClass : Type;
  ServiceType_eq_dec :: EqDecision ServiceType;
  ErrorCode_eq_dec :: EqDecision ErrorCode;
  (** [ErrorCode.E_NO_ERROR] *)
  E_NO_ERROR : ErrorCode;
  (** the class attribute [service_type] of a body class *)
  service_type : BodyClass -> ServiceType;
  (** [issubclass sub cls]: what [isinstance(obj, cls)] tests on the class
      of [obj] *)
  issubclass : BodyClass -> BodyClass -> bool
}.

Module RequestResponse.
Section WithKnxIp.
Context {K : KnxIp}.

(** A KNX/IP frame, as far as [RequestResponse] looks at it: the service
    type of its header (what the receive path dispatches on), the class of
    its body, the body's [status_code] ([None]: the body has no such
    attribute) and whether [normalize()] was called on it. *)
Record KNXIPFrame : Type := {
  header_service_type : ServiceType;
  body_class : BodyClass;
  status_code : option ErrorCode;
  normalized : bool
}.

Definition normalize (f : KNXIPFrame) : KNXIPFrame :=
  {| header_service_type := header_service_type f;
     body_class := body_class f;
     status_code := status_code f;
     normalized := true |}.

Definition isinstance (f : KNXIPFrame) (cls : BodyClass) : bool :=
  issubclass (body_class f) cls.

(** The callables that get registered: bound methods of the transaction,
    or something owned by somebody else. *)
Inductive Callback : Type :=
  | response_rec_callback_of_self
  | foreign_callback (owner : nat).

Inductive TimerCallback : Type :=
  | timeout_of_self
  | foreign_timer (owner : nat).

(** [udpclient.callbacks]: one entry per [register_callback]. *)
Record Route : Type := {
  route_id : nat;
  route_callback : Callback;
  route_service_types : list ServiceType
}.

(** A handle of [loop.call_later]: [timer_when] is the time, on the clock of
    the loop, at which it is due. *)
Record TimerHandle : Type := {
  timer_id : nat;
  timer_when : Z;
  timer_callback : TimerCallback;
  timer_cancelled : bool;
  timer_fired : bool
}.

(** Everything observable, in program order. *)
Inductive Effect : Type :=
  | Registered (id : nat) (types : list ServiceType)
  | Unregistered (id : nat)
  | Sent (f : KNXIPFrame)
  | Armed (id : nat) (delay : Z)
  | Disarmed (id : nat)
  | EventSet
  | CalledSuccessHook (f : KNXIPFrame)
  | CalledErrorHook (f : KNXIPFrame)
  | Warning (msg : string) (arg : option ErrorCode).

(** The attributes [__init__] sets ([xknx] and [udpclient] are the rest of
    the world below). *)
Record Attrs : Type := {
  awaited_response_class : BodyClass;
  response_received_or_timeout : bool;   (* the flag of the asyncio.Event *)
  success : bool;
  timeout_in_seconds : Z;
  timeout_callback : option TimerCallback;
  timeout_handle : option nat
}.

Record World : Type := {
  self : Attrs;
  callbacks : list Route;        (* udpclient.callbacks *)
  next_route : nat;
  connected : bool;              (* udpclient has a transport *)
  outbox : list KNXIPFrame;      (* frames handed to the transport *)
  timers : list TimerHandle;     (* xknx.loop's scheduled handles *)
  next_timer : nat;
  clock : Z;                     (* xknx.loop.time(), in seconds *)
  trace : list Effect
}.

(** *** Field updates *)

Definition with_self (f : Attrs -> Attrs) (w : World) : World :=
  {| self := f (self w); callbacks := callbacks w; next_route := next_route w;
     connected := connected w; outbox := outbox w; timers := timers w;
     next_timer := next_timer w; clock := clock w; trace := trace w |}.

Definition with_callbacks (cs : list Route) (n : nat) (w : World) : World :=
  {| self := self w; callbacks := cs; next_route := n;
     connected := connected w; outbox := outbox w; timers := timers w;
     next_timer := next_timer w; clock := clock w; trace := trace w |}.

Definition with_outbox (o : list KNXIPFrame) (w : World) : World :=
  {| self := self w; callbacks := callbacks w; next_route := next_route w;
     connected := connected w; outbox := o; timers := timers w;
     next_timer := next_timer w; clock := clock w; trace := trace w |}.

Definition with_timers (ts : list TimerHandle) (n : nat) (w : World) : World :=
  {| self := self w; callbacks := callbacks w; next_route := next_route w;
     connected := connected w; outbox := outbox w; timers := ts;
     next_timer := n; clock := clock w; trace := trace w |}.

Definition with_clock (t : Z) (w : World) : World :=
  {| self := self w; callbacks := callbacks w; next_route := next_route w;
     connected := connected w; outbox := outbox w; timers := timers w;
     next_timer := next_timer w; clock := t; trace := trace w |}.

Definition emit (e : Effect) (w : World) : World :=
  {| self := self w; callbacks := callbacks w; next_route := next_route w;
     connected := connected w; outbox := outbox w; timers := timers w;
     next_timer := next_timer w; clock := clock w; trace := trace w ++ [e] |}.

Definition set_event (a : Attrs) : Attrs :=
  {| awaited_response_class := awaited_response_class a;
     response_received_or_timeout := true;
     success := success a;
     timeout_in_seconds := timeout_in_seconds a;
     timeout_callback := timeout_callback a;
     timeout_handle := timeout_handle a |}.

Definition set_success (a : Attrs) : Attrs :=
  {| awaited_response_class := awaited_response_class a;
     response_received_or_timeout := response_received_or_timeout a;
     success := true;
     timeout_in_seconds := timeout_in_seconds a;
     timeout_callback := timeout_callback a;
     timeout_handle := timeout_handle a |}.

Definition set_timeout_handle (h : nat) (a : Attrs) : Attrs :=
  {| awaited_response_class := awaited_response_class a;
     response_received_or_timeout := response_received_or_timeout a;
     success := success a;
     timeout_in_seconds := timeout_in_seconds a;
     timeout_callback := timeout_callback a;
     timeout_handle := Some h |}.

(** [__init__] *)
Definition init (awaited : BodyClass) (timeout_s : Z) : Attrs :=
  {| awaited_response_class := awaited;
     response_received_or_timeout := false;
     success := false;
     timeout_in_seconds := timeout_s;
     timeout_callback := None;
     timeout_handle := None |}.

(** ** What a derived class supplies

    [create_knxipframe] is abstract and the two hooks may be overridden. A
    hook is given the frame; it may log warnings and it returns or raises. *)

Inductive HookExit : Type :=
  | Returns
  | Raises (e : Exn).

Definition Hook : Type :=
  KNXIPFrame -> list (string * option ErrorCode) * HookExit.

Record Derived : Type := {
  create_knxipframe : Exn + KNXIPFrame;
  on_success_hook : Hook;
  on_error_hook : Hook
}.

(** The methods of the base class. *)
Definition base_create_knxipframe : Exn + KNXIPFrame := inl NotImplementedError.

Definition base_on_success_hook : Hook := fun _ => ([], Returns).

Definition base_on_error_hook : Hook := fun knxipframe =>
  ([("Error: reading rading group address from KNX bus failed: %s",
     status_code knxipframe)], Returns).

Definition base : Derived :=
  {| create_knxipframe := base_create_knxipframe;
     on_success_hook := base_on_success_hook;
     on_error_hook := base_on_error_hook |}.

Definition log_warnings (ls : list (string * option ErrorCode)) (w : World) : World :=
  fold_left (fun w l => emit (Warning (fst l) (snd l)) w) ls w.

Definition call_hook (h : Hook) (f : KNXIPFrame) : M World unit :=
  fun w =>
    match snd (h f) with
    | Returns => (Done tt, log_warnings (fst (h f)) w)
    | Raises e => (Raise e, log_warnings (fst (h f)) w)
    end.

(** ** The collaborators: [udpclient] and [xknx.loop] *)

(** Modelled from the spec: [udpclient.register_callback] is defined in
    [xknx/io/udp_client.py]; the design document's registry contract is
    [register(interestedTypes, callback) -> routeHandle]. *)
Definition register_callback (cb : Callback) (types : list ServiceType) : M World nat :=
  fun w =>
    let id := next_route w in
    let r := {| route_id := id; route_callback := cb; route_service_types := types |} in
    (Done id, emit (Registered id types)
                (with_callbacks (callbacks w ++ [r]) (S id) w)).

(** Modelled from the spec: [udpclient.unregister_callback]; unregistering an
    already removed or unknown handle is a no-op. *)
Definition unregister_callback (callb : nat) : M World unit :=
  fun w =>
    (Done tt, emit (Unregistered callb)
                (with_callbacks
                   (List.filter (fun r => negb (Nat.eqb (route_id r) callb)) (callbacks w))
                   (next_route w) w)).

(** Modelled from the spec: [udpclient.send]; it hands the frame to the
    network layer and may fail with a transport error. *)
Definition udp_send (f : KNXIPFrame) : M World unit :=
  fun w =>
    if connected w
    then (Done tt, emit (Sent f) (with_outbox (outbox w ++ [f]) w))
    else (Raise TransportError, w).

(** [loop.call_later(delay, callback)]: a new handle, due [delay] seconds
    from now. *)
Definition call_later (delay : Z) (cb : TimerCallback) : M World nat :=
  fun w =>
    let id := next_timer w in
    let t := {| timer_id := id; timer_when := (clock w + delay)%Z;
                timer_callback := cb;
                timer_cancelled := false; timer_fired := false |} in
    (Done id, emit (Armed id delay) (with_timers (timers w ++ [t]) (S id) w)).

Definition cancel_timer (id : nat) (t : TimerHandle) : TimerHandle :=
  if Nat.eqb (timer_id t) id
  then {| timer_id := timer_id t; timer_when := timer_when t;
          timer_callback := timer_callback t;
          timer_cancelled := true; timer_fired := timer_fired t |}
  else t.

(** [handle.cancel()] *)
Definition handle_cancel (id : nat) : M World unit :=
  fun w =>
    (Done tt, emit (Disarmed id)
                (with_timers (map (cancel_timer id) (timers w)) (next_timer w) w)).

(** ** The methods of [RequestResponse] *)

Definition send_request (d : Derived) : M World unit :=
  match create_knxipframe d with
  | inl e => raise e
  | inr knxipframe => udp_send (normalize knxipframe)
  end.

Definition response_rec_callback (d : Derived) (knxipframe : KNXIPFrame) : M World unit :=
  do a <- gets self;
  if negb (isinstance knxipframe (awaited_response_class a))
  then modify (emit (Warning "Cant understand knxipframe" None))
  else
    modify (with_self set_event) ;; modify (emit EventSet) ;;
    match status_code knxipframe with
    | None => raise AttributeError
    | Some c =>
        if decide (c = E_NO_ERROR)
        then
          modify (with_self set_success) ;;
          modify (emit (CalledSuccessHook knxipframe)) ;;
          call_hook (on_success_hook d) knxipframe
        else
          modify (emit (CalledErrorHook knxipframe)) ;;
          call_hook (on_error_hook d) knxipframe
    end.

Definition timeout : M World unit :=
  modify (with_self set_event) ;; modify (emit EventSet).

Definition start_timeout : M World unit :=
  do a <- gets self;
  do h <- call_later (timeout_in_seconds a) timeout_of_self;
  modify (with_self (set_timeout_handle h)).

Definition stop_timeout : M World unit :=
  do a <- gets self;
  match timeout_handle a with
  | None => raise AttributeError
  | Some h => handle_cancel h
  end.

(** ** The event loop while [start] is suspended *)

Definition has_service (r : Route) (f : KNXIPFrame) : bool :=
  existsb (fun t => bool_decide (t = header_service_type f)) (route_service_types r).

Definition invoke (d : Derived) (cb : Callback) (f : KNXIPFrame) : M World unit :=
  match cb with
  | response_rec_callback_of_self => response_rec_callback d f
  | foreign_callback _ => ret tt
  end.

Fixpoint fan_out (d : Derived) (routes : list Route) (f : KNXIPFrame) : M World unit :=
  match routes with
  | [] => ret tt
  | r :: rs =>
      if has_service r f
      then invoke d (route_callback r) f ;; fan_out d rs f
      else fan_out d rs f
  end.

(** Modelled from the spec: the receive path of [udpclient]; [dispatch(frame)]
    calls the callback of every route, of a snapshot of the registrations,
    whose interested types contain the frame's service type. *)
Definition dispatch (d : Derived) (f : KNXIPFrame) : M World unit :=
  do routes <- gets callbacks;
  fan_out d routes f.

Definition pending (t : TimerHandle) : bool :=
  negb (timer_cancelled t) && negb (timer_fired t).

Definition mark_fired (t : TimerHandle) : TimerHandle :=
  if pending t
  then {| timer_id := timer_id t; timer_when := timer_when t;
          timer_callback := timer_callback t;
          timer_cancelled := timer_cancelled t; timer_fired := true |}
  else t.

Definition fire (t : TimerHandle) : M World unit :=
  match timer_callback t with
  | timeout_of_self => timeout
  | foreign_timer _ => ret tt
  end.

Fixpoint fire_all (ts : list TimerHandle) : M World unit :=
  match ts with
  | [] => ret tt
  | t :: ts' => fire t ;; fire_all ts'
  end.

(** A handle is due at the time [t]. *)
Definition due (t : Z) (h : TimerHandle) : bool :=
  pending h && (timer_when h <=? t)%Z.

Definition run_due (t : Z) (h : TimerHandle) : TimerHandle :=
  if (timer_when h <=? t)%Z then mark_fired h else h.

(** The clock of the loop gets to [t]: the loop runs the callback of every
    handle that is due by then and was neither cancelled nor run before. *)
Definition advance_to (t : Z) : M World unit :=
  do ts <- gets timers;
  modify (fun w => with_clock t (with_timers (map (run_due t) ts) (next_timer w) w)) ;;
  fire_all (List.filter (due t) ts).

(** The time at which the last of the waiting handles is due. *)
Definition horizon (w : World) : Z :=
  fold_right (fun h t => if pending h then Z.max (timer_when h) t else t)
    (clock w) (timers w).

(** All the scheduled delays have passed: the clock gets to the horizon. *)
Definition elapse : M World unit :=
  do t <- gets horizon;
  advance_to t.

(** [dt] seconds pass (the clock does not go back). *)
Definition pass (dt : Z) : M World unit :=
  do t <- gets clock;
  advance_to (t + Z.max 0 dt)%Z.

(** What the loop does, one after the other, while a coroutine waits. A
    waiting coroutine that can go on does so before the next event, unless
    the events are marked as one iteration of the loop by [Burst]: what one
    iteration runs, runs before any coroutine that it woke. *)
Inductive LoopEvent : Type :=
  | Datagram (f : KNXIPFrame)   (* the receive path got a frame *)
  | Elapse                      (* the scheduled delays have passed *)
  | CancelTask                  (* the caller's task is cancelled *)
  | Pass (dt : Z)               (* [dt] seconds pass *)
  | Burst (n : nat).            (* the next [n] events are one iteration *)

(** What an event does to the world ([CancelTask] acts on the task). *)
Definition loop_step (d : Derived) (ev : LoopEvent) (w : World) : World :=
  match ev with
  | Datagram f => snd (dispatch d f w)
  | Elapse => snd (elapse w)
  | Pass dt => snd (pass dt w)
  | CancelTask | Burst _ => w
  end.

(** A coroutine suspended on the event, with [held] events of the current
    iteration still to run and [doomed] when the task was cancelled in this
    iteration. Between iterations it goes on: with [CancelledError] when
    it was cancelled, normally when the flag is set; otherwise the loop
    runs the next event. An exception of a callback ends that callback only
    (the loop reports it and goes on). *)
Fixpoint waiting (d : Derived) (held : nat) (doomed : bool)
    (sched : list LoopEvent) (w : World) : Res unit * World :=
  match sched with
  | [] =>
      if doomed then (Raise CancelledError, w)
      else if response_received_or_timeout (self w) then (Done tt, w)
      else (Blocked, w)
  | ev :: rest =>
      match held with
      | O =>
          if doomed then (Raise CancelledError, w)
          else if response_received_or_timeout (self w) then (Done tt, w)
          else
            match ev with
            | CancelTask => (Raise CancelledError, w)
            | Burst n => waiting d n false rest w
            | _ => waiting d 0 false rest (loop_step d ev w)
            end
      | S k =>
          match ev with
          | CancelTask => waiting d k true rest w
          | _ => waiting d k doomed rest (loop_step d ev w)
          end
      end
  end.

(** [yield from self.response_received_or_timeout.wait()]: returns at once
    when the flag is set; otherwise the coroutine is suspended and the loop
    runs. *)
Definition wait (d : Derived) (sched : list LoopEvent) (w : World) : Res unit * World :=
  waiting d 0 false sched w.

Definition start (d : Derived) (sched : list LoopEvent) : M World unit :=
  do a <- gets self;
  do callb <- register_callback response_rec_callback_of_self
                [service_type (awaited_response_class a)];
  send_request d ;;
  start_timeout ;;
  wait d sched ;;
  stop_timeout ;;
  unregister_callback callb.

(** What the caller of [start] has afterwards: how the call ended (it
    returns [None]) and the attribute [success]. *)
Definition reported (r : Res unit * World) : Res unit * bool :=
  (fst r, success (self (snd r))).

Definition hook_calls (tr : list Effect) : list Effect :=
  List.filter (fun e => match e with
                   | CalledSuccessHook _ | CalledErrorHook _ => true
                   | _ => false
                   end) tr.

Definition registered (id : nat) (w : World) : bool :=
  existsb (fun r => Nat.eqb (route_id r) id) (callbacks w).

Definition timer_pending (id : nat) (w : World) : bool :=
  existsb (fun t => Nat.eqb (timer_id t) id && pending t) (timers w).

End WithKnxIp.
End RequestResponse.

(** * [xknx/devices/datetime.py] *)

Module DateTime.

(** [class DateTimeBroadcastType(Enum)] *)
Inductive DateTimeBroadcastType : Type :=
  | DATETIME
  | DATE
  | TIME.

Definition value (t : DateTimeBroadcastType) : Z :=
  match t with
  | DATETIME => 1
  | DATE => 2
  | TIME => 3
  end.

(** The attribute [broadcast_type] holds whatever the constructor was given:
    a member of the enum, or some other object. *)
Inductive PyObject : Type :=
  | Member (t : DateTimeBroadcastType)
  | Other (repr : string).

#[global] Instance DateTimeBroadcastType_eq_dec : EqDecision DateTimeBroadcastType.
Proof. solve_decision. Defined.

#[global] Instance PyObject_eq_dec : EqDecision PyObject.
Proof.
  intros x y. unfold Decision.
  decide equality; [apply DateTimeBroadcastType_eq_dec | apply string_dec].
Defined.

(** [DPTArray(value)] *)
Inductive DPTArray : Type :=
  | mkDPTArray (raw : list Z).

Section WithKnx.
(** From [xknx.knx] and [.device]: group addresses, the encoders of the
    current local time ([Clock] is what [time.localtime()] reads) and
    [Device.send], which acts on the rest of the system, [Bus]. *)
Variables GroupAddress Clock Bus : Type.
Variable current_datetime_as_knx : Clock -> list Z.
Variable current_date_as_knx : Clock -> list Z.
Variable current_time_as_knx : Clock -> list Z.
Variable send : option GroupAddress -> DPTArray -> M Bus unit.

Record DateTime : Type := {
  name : string;
  broadcast_type : PyObject;
  group_address : option GroupAddress
}.

(** [__init__], with its default [broadcast_type=DateTimeBroadcastType.TIME] *)
Definition init (n : string) (bt : option PyObject) (ga : option GroupAddress) : DateTime :=
  {| name := n;
     broadcast_type := match bt with Some o => o | None => Member TIME end;
     group_address := ga |}.

(** The [if]/[elif]/[else] of [broadcast_time]: the value of
    [broadcast_data], or the exception of the last branch. *)
Definition broadcast_data (self : DateTime) (now : Clock) : Exn + list Z :=
  if decide (broadcast_type self = Member DATETIME) then
    inr (current_datetime_as_knx now)
  else if decide (broadcast_type self = Member DATE) then
    inr (current_date_as_knx now)
  else if decide (broadcast_type self = Member TIME) then
    inr (current_time_as_knx now)
  else
    inl TypeError.

Definition broadcast_time (self : DateTime) (now : Clock) : M Bus unit :=
  match broadcast_data self now with
  | inl e => raise e
  | inr data => send (group_address self) (mkDPTArray data)
  end.

(** [sync] *)
Definition sync (self : DateTime) (now : Clock) : M Bus unit :=
  broadcast_time self now.

(** The encoder that belongs to a member of the enum. *)
Definition encoder (t : DateTimeBroadcastType) : Clock -> list Z :=
  match t with
  | DATETIME => current_datetime_as_knx
  | DATE => current_date_as_knx
  | TIME => current_time_as_knx
  end.

End WithKnx.
End DateTime.

(** * Concrete instances, for running the definitions *)

Module Sample.
Import RequestResponse.

(** Service types, status codes and body classes as numbers; a class is
    its own service type and has no subclasses. *)
#[global] Instance knxip : KnxIp :=
  {| ServiceType := nat;
     ErrorCode := nat;
     BodyClass := nat;
     ServiceType_eq_dec := Nat.eq_dec;
     ErrorCode_eq_dec := Nat.eq_dec;
     E_NO_ERROR := 0;
     service_type := fun c => c;
     issubclass := Nat.eqb |}.

Definition CONNECT_RESPONSE : nat := 518.       (* 0x0206 *)
Definition DISCONNECT_RESPONSE : nat := 522.    (* 0x020A *)
Definition E_NO_MORE_CONNECTIONS : nat := 36.   (* 0x24 *)

Definition response (cls status : nat) : KNXIPFrame :=
  {| header_service_type := cls; body_class := cls;
     status_code := Some status; normalized := true |}.

Definition request : KNXIPFrame :=
  {| header_service_type := 517; body_class := 517;
     status_code := None; normalized := false |}.

(** A fresh transaction awaiting a connect response, on a connected client
    that already has somebody else's registration. *)
Definition world0 : World :=
  {| self := init CONNECT_RESPONSE 1;
     callbacks := [ {| route_id := 0; route_callback := foreign_callback 7;
                       route_service_types := [CONNECT_RESPONSE] |} ];
     next_route := 1;
     connected := true;
     outbox := [];
     timers := [];
     next_timer := 0;
     clock := 0;
     trace := [] |}.

Definition offline (w : World) : World :=
  {| self := self w; callbacks := callbacks w; next_route := next_route w;
     connected := false; outbox := outbox w; timers := timers w;
     next_timer := next_timer w; clock := clock w; trace := trace w |}.

(** A derived class that only implements [create_knxipframe]. *)
Definition connect : Derived :=
  {| create_knxipframe := inr request;
     on_success_hook := base_on_success_hook;
     on_error_hook := base_on_error_hook |}.

(** A derived class whose hooks raise. *)
Definition faulty : Derived :=
  {| create_knxipframe := inr request;
     on_success_hook := fun _ => ([], Raises (UserError 1));
     on_error_hook := fun _ => ([], Raises (UserError 2)) |}.

(** A date/time device on a bus that records what is sent: group addresses
    are numbers, the clock is the number of seconds since midnight and the
    encoders give bytes. *)
Definition Telegram : Type := (option nat * DateTime.DPTArray)%type.

Definition put : option nat -> DateTime.DPTArray -> M (list Telegram) unit :=
  fun ga payload => modify (fun bus => bus ++ [(ga, payload)]).

Definition time_as_knx (now : nat) : list Z :=
  [Z.of_nat (now / 3600); Z.of_nat ((now / 60) mod 60); Z.of_nat (now mod 60)].

Definition date_as_knx (_ : nat) : list Z := [4; 11; 26]%Z.

Definition datetime_as_knx (now : nat) : list Z :=
  date_as_knx now ++ time_as_knx now.

Definition clock_device : DateTime.DateTime nat :=
  DateTime.init nat "General.Time" None (Some 7).

Definition date_device : DateTime.DateTime nat :=
  DateTime.init nat "General.Date" (Some (DateTime.Member DateTime.DATE)) (Some 8).

Definition odd_device : DateTime.DateTime nat :=
  DateTime.init nat "General.Odd" (Some (DateTime.Other "time")) (Some 9).

End Sample.

(** * Vocabulary of the properties *)

Import RequestResponse.

Section Vocabulary.
Context {K : KnxIp}.

(** The flag of the completion event. *)
Definition flag (w : World) : bool := response_received_or_timeout (self w).

(** What a callback of the loop leaves alone: the registry, the client, the
    timers and the handle; a set flag stays set and the trace only grows. *)
Record callback_frame (w w' : World) : Prop := {
  cf_callbacks : callbacks w' = callbacks w;
  cf_next_route : next_route w' = next_route w;
  cf_connected : connected w' = connected w;
  cf_outbox : outbox w' = outbox w;
  cf_timers : timers w' = timers w;
  cf_next_timer : next_timer w' = next_timer w;
  cf_clock : clock w' = clock w;
  cf_handle : timeout_handle (self w') = timeout_handle (self w);
  cf_awaited : awaited_response_class (self w') = awaited_response_class (self w);
  cf_flag : flag w = true -> flag w' = true;
  cf_trace : exists post, trace w' = trace w ++ post
}.

(** What the loop leaves alone while the coroutine waits: as a callback,
    except that timers get marked as run. *)
Record loop_frame (w w' : World) : Prop := {
  lf_callbacks : callbacks w' = callbacks w;
  lf_next_route : next_route w' = next_route w;
  lf_connected : connected w' = connected w;
  lf_outbox : outbox w' = outbox w;
  lf_next_timer : next_timer w' = next_timer w;
  lf_handle : timeout_handle (self w') = timeout_handle (self w);
  lf_awaited : awaited_response_class (self w') = awaited_response_class (self w);
  lf_flag : flag w = true -> flag w' = true;
  lf_trace : exists post, trace w' = trace w ++ post
}.

(** The transaction's timeout is scheduled and was neither cancelled nor run. *)
Definition armed (w : World) : Prop :=
  exists t, In t (timers w) /\ pending t = true /\
            timer_callback t = timeout_of_self.

(** A route of the transaction that the frame is dispatched to. *)
Definition routed_to_self (f : KNXIPFrame) (w : World) : Prop :=
  exists r, In r (callbacks w) /\
            route_callback r = response_rec_callback_of_self /\
            has_service r f = true.

(** The transaction's recorded outcome, as far as its attributes tell. *)
Inductive Outcome : Type :=
  | Pending
  | Succeeded
  | Unsuccessful.

Definition outcome (w : World) : Outcome :=
  if flag w then (if success (self w) then Succeeded else Unsuccessful)
  else Pending.

(** C1, as the design document has it: after [timeout()] completed the
    transaction, a frame handed to [response_rec_callback] changes neither
    the recorded outcome nor the hooks that were invoked. *)
Definition late_response_is_ignored (d : Derived) (w : World) (f : KNXIPFrame) : Prop :=
  let w1 := snd (timeout w) in
  let w2 := snd (response_rec_callback d f w1) in
  outcome w2 = outcome w1 /\ hook_calls (trace w2) = hook_calls (trace w1).

(** The worlds [start] goes through before it waits. *)
Definition own_types (w : World) : list ServiceType :=
  [service_type (awaited_response_class (self w))].

Definition own_route (w : World) : Route :=
  {| route_id := next_route w;
     route_callback := response_rec_callback_of_self;
     route_service_types := own_types w |}.

Definition after_register (w : World) : World :=
  snd (register_callback response_rec_callback_of_self (own_types w) w).

Definition after_send (f : KNXIPFrame) (w : World) : World :=
  snd (udp_send (normalize f) (after_register w)).

Definition after_arm (f : KNXIPFrame) (w : World) : World :=
  snd (start_timeout (after_send f w)).

(** [stop_timeout] and [unregister_callback], the end of [start]. *)
Definition teardown (w0 w : World) : World :=
  snd (unregister_callback (next_route w0) (snd (handle_cancel (next_timer w0) w))).

(** C3, as the design document has it: when the send fails, [start] raises
    the transport error, no timeout was armed and the transaction's route
    is not in the registry. *)
Definition send_failure_leaves_nothing (d : Derived) (sched : list LoopEvent) (w : World) : Prop :=
  let r := start d sched w in
  fst r = Raise TransportError /\
  timers (snd r) = timers w /\
  registered (next_route w) (snd r) = false.

(** C4, as the design document has it: however [start] ends, the route is
    unregistered and the timeout is cancelled. *)
Definition teardown_done (w w' : World) : Prop :=
  registered (next_route w) w' = false /\
  timer_pending (next_timer w) w' = false.

Definition teardown_on_every_exit (d : Derived) (sched : list LoopEvent) (w : World) : Prop :=
  fst (start d sched w) <> Blocked ->
  teardown_done w (snd (start d sched w)).

Definition success_called (tr : list Effect) : bool :=
  existsb (fun e => match e with CalledSuccessHook _ => true | _ => false end) tr.

(** [success] changes by a call of the success hook and not otherwise. *)
Definition success_tracks (w w' : World) : Prop :=
  exists post, trace w' = trace w ++ post /\
               success (self w') = success (self w) || success_called post.

(** C2, as the design document has it: the result of a run that ended by a
    protocol failure differs from the result of a run that timed out. *)
Definition failure_and_timeout_reported_apart (d : Derived) (w : World) (f : KNXIPFrame) : Prop :=
  reported (start d [Datagram f] w) <> reported (start d [Elapse] w).

End Vocabulary.

(** * [DateTime.from_config] and [DateTime.__init__] *)

From stdpp Require gmap strings.

Module DateTimeConfig.
Import stdpp.gmap stdpp.strings.
Import DateTime.

(** What a configuration holds under a key: the scalars of a YAML file that
    are a [str], an [int] or [None]. *)
Inductive Value : Type :=
  | VStr (s : string)
  | VInt (z : Z)
  | VNone.

(** What [from_config] and [__init__] may raise. *)
Inductive ConfigExn : Type :=
  | Builtin (e : Exn)
  | KeyError (key : string)           (* [DateTimeBroadcastType[...]] *)
  | CouldNotParseAddress.             (* [GroupAddress(...)] *)

(** [DateTimeBroadcastType[name]]: the member of that name. *)
Definition member_of_name (s : string) : option DateTimeBroadcastType :=
  if String.eqb s "DATETIME" then Some DATETIME
  else if String.eqb s "DATE" then Some DATE
  else if String.eqb s "TIME" then Some TIME
  else None.

Definition name_of_member (t : DateTimeBroadcastType) : string :=
  match t with
  | DATETIME => "DATETIME"
  | DATE => "DATE"
  | TIME => "TIME"
  end.

Section WithPython.
(** [str.upper] of Python and the constructor [GroupAddress(...)] of
    [xknx.knx], which takes a [str] or an [int] and raises when it cannot
    parse it. *)
Variable GroupAddress : Type.
Variable upper : string -> string.
Variable GroupAddress_new : string + Z -> option GroupAddress.

(** The argument [group_address] of [__init__]. *)
Inductive AddressArg : Type :=
  | ArgNone
  | ArgStr (s : string)
  | ArgInt (z : Z)
  | ArgAddress (ga : GroupAddress).

(** [__init__]: a [str] or an [int] is turned into a [GroupAddress], anything
    else is kept. *)
Definition __init__ (name : string) (broadcast_type : option PyObject)
    (group_address : AddressArg) : ConfigExn + DateTime GroupAddress :=
  match group_address with
  | ArgStr s =>
      match GroupAddress_new (inl s) with
      | Some ga => inr (init GroupAddress name broadcast_type (Some ga))
      | None => inl CouldNotParseAddress
      end
  | ArgInt z =>
      match GroupAddress_new (inr z) with
      | Some ga => inr (init GroupAddress name broadcast_type (Some ga))
      | None => inl CouldNotParseAddress
      end
  | ArgNone => inr (init GroupAddress name broadcast_type None)
  | ArgAddress ga => inr (init GroupAddress name broadcast_type (Some ga))
  end.

(** [config.get('group_address')] as an argument of [__init__]. *)
Definition address_arg (v : option Value) : AddressArg :=
  match v with
  | Some (VStr s) => ArgStr s
  | Some (VInt z) => ArgInt z
  | Some VNone | None => ArgNone
  end.

(** [config.get('broadcast_type', 'time').upper()] *)
Definition broadcast_type_string (config : gmap string Value) : ConfigExn + string :=
  match config !! "broadcast_type" with
  | None => inr (upper "time")
  | Some (VStr s) => inr (upper s)
  | Some (VInt _) | Some VNone => inl (Builtin AttributeError)
  end.

Definition from_config (name : string) (config : gmap string Value)
    : ConfigExn + DateTime GroupAddress :=
  match broadcast_type_string config with
  | inl e => inl e
  | inr s =>
      match member_of_name s with
      | None => inl (KeyError s)
      | Some broadcast_type =>
          __init__ name (Some (Member broadcast_type))
            (address_arg (config !! "group_address"))
      end
  end.

End WithPython.
End DateTimeConfig.

(** * [homeassistant/components/light/knx.py]: [KNXLight] *)

Module KNXLight.

(** The light of [xknx.devices], as far as [KNXLight] reads it. *)
Record Device : Type := {
  supports_brightness : bool;
  supports_color : bool;
  current_brightness : option Z;
  current_color : option (Z * Z * Z);
  state : bool
}.

Section WithHomeAssistant.
(** From [homeassistant]: the feature flags, and the colour conversions of
    [homeassistant.util.color]. [Num] stands for the floats of Python;
    [percent b] is the float [b * 100 / 255]. *)
Variable Num : Type.
Variables SUPPORT_BRIGHTNESS SUPPORT_COLOR : Z.
Variable percent : Z -> Num.

(** A positional argument of a colour conversion. *)
Inductive Arg : Type :=
  | AInt (z : Z)
  | AFloat (x : Num).

Variable color_RGB_to_hs : Z -> Z -> Z -> Num * Num.
Variable color_hsv_to_RGB : list Arg -> Exn + (Z * Z * Z).

Definition DEFAULT_COLOR : list Arg := [AInt 255; AInt 255; AInt 255].
Definition DEFAULT_BRIGHTNESS : Z := 255.

(** What [KNXLight] asks of the device. *)
Inductive Command : Type :=
  | set_brightness (b : Z)
  | set_color (rgb : Z * Z * Z)
  | set_on
  | set_off.

(** From outside this file as well: what the caller gives as brightness,
    an object [Obj] that [int(...)] of Python turns into an integer or
    rejects, and what the awaited method of the device raises, if it
    does. *)
Variable Obj : Type.
Variable int : Obj -> Exn + Z.
Variable device_raises : Command -> option Exn.

(** [await self.device.<method>(...)]: the call is made; the exception of
    the device, if any, is the one of the caller. *)
Definition call (c : Command) : M (list Command) unit :=
  fun cs =>
    (match device_raises c with
     | None => Done tt
     | Some e => Raise e
     end, cs ++ [c]).

(** [max(rgb)] of a triple. *)
Definition max3 (rgb : Z * Z * Z) : Z :=
  let '(r, g, b) := rgb in Z.max (Z.max r g) b.

(** The property [brightness] *)
Definition brightness (device : Device) : option Z :=
  if supports_color device then
    match current_color device with
    | None => None
    | Some rgb => Some (max3 rgb)
    end
  else if supports_brightness device then current_brightness device
  else None.

(** The property [hs_color] *)
Definition hs_color (device : Device) : option (list Arg) :=
  if supports_color device then
    match current_color device with
    | None => None
    | Some (r, g, b) =>
        let '(h, s) := color_RGB_to_hs r g b in Some [AFloat h; AFloat s]
    end
  else None.

(** The property [is_on] *)
Definition is_on (device : Device) : bool := state device.

(** The property [supported_features] *)
Definition supported_features (device : Device) : Z :=
  let flags := 0%Z in
  let flags := if supports_brightness device
               then Z.lor flags SUPPORT_BRIGHTNESS else flags in
  let flags := if supports_color device
               then Z.lor flags (Z.lor SUPPORT_COLOR SUPPORT_BRIGHTNESS)
               else flags in
  flags.

(** The keyword arguments of [async_turn_on] that it looks at:
    [ATTR_BRIGHTNESS], any object, and [ATTR_HS_COLOR], a sequence. *)
Record TurnOn : Type := {
  attr_brightness : option Obj;
  attr_hs_color : option (list Arg)
}.

Definition is_some {A} (o : option A) : bool :=
  match o with Some _ => true | None => false end.

(** [int(kwargs[ATTR_BRIGHTNESS])], if the key is there. *)
Definition requested_brightness (kwargs : TurnOn) : Exn + option Z :=
  match attr_brightness kwargs with
  | None => inr None
  | Some v =>
      match int v with
      | inl e => inl e
      | inr b => inr (Some b)
      end
  end.

Definition async_turn_on (device : Device) (kwargs : TurnOn) : M (list Command) unit :=
  (* initialize with current values *)
  let brightness0 := brightness device in
  let hs_color0 := hs_color device in
  (* overwrite values with new settings, if available *)
  match requested_brightness kwargs with
  | inl e => raise e
  | inr requested =>
      let brightness1 := match requested with
                         | Some b => Some b
                         | None => brightness0
                         end in
      let hs_color1 := match attr_hs_color kwargs with
                       | Some hs => Some hs
                       | None => hs_color0
                       end in
      (* fall back to default values, if required *)
      let brightness2 := match brightness1 with
                         | Some b => b
                         | None => DEFAULT_BRIGHTNESS
                         end in
      let hs_color2 := match hs_color1 with
                       | Some hs => hs
                       | None => DEFAULT_COLOR
                       end in
      let update_brightness := is_some (attr_brightness kwargs) in
      let update_color := is_some (attr_hs_color kwargs) in
      if supports_brightness device && (update_brightness && negb update_color) then
        call (set_brightness brightness2)
      else if supports_color device && (update_brightness || update_color) then
        match color_hsv_to_RGB (hs_color2 ++ [AFloat (percent brightness2)]) with
        | inl e => raise e
        | inr rgb => call (set_color rgb)
        end
      else
        call set_on
  end.

Definition async_turn_off (device : Device) : M (list Command) unit :=
  call set_off.

End WithHomeAssistant.
End KNXLight.

(** * More concrete instances *)

Module SampleConfig.
Import stdpp.gmap stdpp.strings.
Import DateTimeConfig.

(** Upper case of the letters a to z; other characters stay. *)
Definition upper_ascii (c : Ascii.ascii) : Ascii.ascii :=
  let n := Ascii.nat_of_ascii c in
  if (97 <=? n)%nat && (n <=? 122)%nat then Ascii.ascii_of_nat (n - 32) else c.

Fixpoint upper (s : string) : string :=
  match s with
  | EmptyString => EmptyString
  | String c s' => String (upper_ascii c) (upper s')
  end.

(** Group addresses as numbers: an [int] within 16 bits is one, and so is
    the string of the address 1/2/3. *)
Definition GroupAddress_new (v : string + Z) : option nat :=
  match v with
  | inl s => if String.eqb s "1/2/3" then Some 2563%nat else None
  | inr z => if ((0 <=? z) && (z <=? 65535))%Z then Some (Z.to_nat z) else None
  end.

Definition date_config : gmap string Value :=
  <["broadcast_type" := VStr "Date"]> (<["group_address" := VStr "1/2/3"]> ∅).

Definition bare_config : gmap string Value :=
  <["group_address" := VInt 7]> ∅.

Definition odd_config : gmap string Value :=
  <["broadcast_type" := VStr "week"]> ∅.

End SampleConfig.

Module SampleLight.
Import KNXLight.

(** The flags of Home Assistant; whole numbers stand for the floats, and the
    conversion to RGB takes three arguments. *)
Definition SUPPORT_BRIGHTNESS : Z := 1.
Definition SUPPORT_COLOR : Z := 16.

Definition percent (b : Z) : Z := (b * 100 / 255)%Z.

Definition color_RGB_to_hs (r g b : Z) : Z * Z :=
  (Z.max (Z.max r g) b - Z.min (Z.min r g) b, Z.max (Z.max r g) b)%Z.

Definition color_hsv_to_RGB (args : list (Arg Z)) : Exn + (Z * Z * Z) :=
  match args with
  | [AFloat _ h; AFloat _ s; AFloat _ v] => inr (h, s, v)
  | _ => inl TypeError
  end.

Definition rgb_light : Device :=
  {| supports_brightness := false; supports_color := true;
     current_brightness := None; current_color := Some (10, 200, 30)%Z;
     state := true |}.

Definition dark_rgb_light : Device :=
  {| supports_brightness := false; supports_color := true;
     current_brightness := None; current_color := None;
     state := false |}.

Definition dimmer : Device :=
  {| supports_brightness := true; supports_color := false;
     current_brightness := Some 128%Z; current_color := None;
     state := true |}.

Definition switch : Device :=
  {| supports_brightness := false; supports_color := false;
     current_brightness := None; current_color := None;
     state := false |}.

(** What a caller may give as brightness: an [int], or [None], which
    [int(...)] rejects with a [TypeError]. *)
Inductive Given : Type :=
  | Number (z : Z)
  | Nothing.

Definition int (v : Given) : Exn + Z :=
  match v with
  | Number z => inr z
  | Nothing => inl TypeError
  end.

(** A device that raises when it is given a value that does not fit in a
    byte. *)
Definition byte (z : Z) : bool := ((0 <=? z) && (z <=? 255))%Z.

Definition device_raises (c : Command) : option Exn :=
  match c with
  | set_brightness b => if byte b then None else Some (UserError 3)
  | set_color (r, g, b) =>
      if byte r && byte g && byte b then None else Some (UserError 3)
  | set_on | set_off => None
  end.

Definition turn_on :=
  async_turn_on Z percent color_RGB_to_hs color_hsv_to_RGB Given int device_raises.

End SampleLight.

(** * Further vocabulary: traces, registries and timers *)

Section TraceVocabulary.
Context {K : KnxIp}.

(** An effect that the loop may cause while [start] waits over [sched], for
    a transaction awaiting [cls]: setting the event, a warning, or the call
    of the hook that a received frame of the awaited class selects. *)
Definition justified (sched : list LoopEvent) (cls : BodyClass) (e : Effect) : Prop :=
  match e with
  | EventSet => True
  | Warning _ _ => True
  | CalledSuccessHook f =>
      In (Datagram f) sched /\ isinstance f cls = true /\
      status_code f = Some E_NO_ERROR
  | CalledErrorHook f =>
      In (Datagram f) sched /\ isinstance f cls = true /\
      exists c, status_code f = Some c /\ c <> E_NO_ERROR
  | _ => False
  end.

(** The trace grew by effects that [sched] justifies. *)
Definition grows_justified (sched : list LoopEvent) (cls : BodyClass) (w w' : World) : Prop :=
  exists post, trace w' = trace w ++ post /\ Forall (justified sched cls) post.

(** The frames handed to [udpclient.send] and the delays given to
    [loop.call_later], as the trace has them. *)
Definition sent_frames (tr : list Effect) : list KNXIPFrame :=
  flat_map (fun e => match e with Sent f => [f] | _ => [] end) tr.

Definition armed_delays (tr : list Effect) : list Z :=
  flat_map (fun e => match e with Armed _ delay => [delay] | _ => [] end) tr.

(** The handles of the registry are below the next one to be given out. *)
Definition fresh_routes (w : World) : Prop :=
  Forall (fun r => route_id r < next_route w) (callbacks w).

(** No timeout of the transaction is waiting to run, except maybe the
    handle [h]. *)
Definition quiet_except (h : nat) (ts : list TimerHandle) : Prop :=
  forall t, In t ts -> timer_callback t = timeout_of_self ->
            pending t = true -> timer_id t = h.

Definition quiet (ts : list TimerHandle) : Prop :=
  forall t, In t ts -> timer_callback t = timeout_of_self -> pending t = false.

(** The registry holds registrations of others only. *)
Definition foreign_routes (w : World) : Prop :=
  Forall (fun r => route_callback r <> response_rec_callback_of_self) (callbacks w).

(** The loop receives frames only, none of them of the class [cls]. *)
Definition only_other_frames (cls : BodyClass) (sched : list LoopEvent) : Prop :=
  Forall (fun ev => exists f, ev = Datagram f /\ isinstance f cls = false) sched.

(** The timeout of the transaction: the handle [h] is waiting and due at
    the time [D]. *)
Definition armed_with (h : nat) (D : Z) (w : World) : Prop :=
  exists t, In t (timers w) /\ timer_id t = h /\ pending t = true /\
            timer_callback t = timeout_of_self /\ timer_when t = D.

(** No timeout of the transaction is due before the time [D]. *)
Definition sleeping_until (D : Z) (w : World) : Prop :=
  forall t, In t (timers w) -> timer_callback t = timeout_of_self ->
            pending t = true -> (D <= timer_when t)%Z.

(** The clock of the loop, at [t] now, gets to [deadline] during [sched], at
    an event at which the loop runs what is due. *)
Fixpoint clock_reaches (deadline t : Z) (sched : list LoopEvent) : bool :=
  match sched with
  | [] => false
  | Elapse :: _ => true
  | Pass dt :: rest =>
      (deadline <=? t + Z.max 0 dt)%Z ||
      clock_reaches deadline (t + Z.max 0 dt) rest
  | _ :: rest => clock_reaches deadline t rest
  end.

(** A loop in which only time passes and frames of other classes than [cls]
    arrive. *)
Definition idle_loop (cls : BodyClass) (sched : list LoopEvent) : Prop :=
  Forall (fun ev => (exists dt, ev = Pass dt) \/
                    (exists f, ev = Datagram f /\ isinstance f cls = false))
         sched.

(** Which of the handles of the loop were cancelled, and the effects of a
    teardown in a trace. *)
Definition cancelled_handles (w : World) : list bool :=
  map timer_cancelled (timers w).

Definition teardown_effects (tr : list Effect) : list Effect :=
  List.filter (fun e => match e with
                        | Disarmed _ | Unregistered _ => true
                        | _ => false
                        end) tr.

(** C6, as the design document has it: a frame of the awaited class with
    another status code than [E_NO_ERROR] makes the outcome a failure. *)
Definition error_status_gives_failure (d : Derived) (w : World) (f : KNXIPFrame) : Prop :=
  isinstance f (awaited_response_class (self w)) = true ->
  (exists c, status_code f = Some c /\ c <> E_NO_ERROR) ->
  outcome (snd (response_rec_callback d f w)) = Unsuccessful.

End TraceVocabulary.

(** * Properties of [RequestResponse] *)

Section HandlerFacts.
Context {K : KnxIp}.

Lemma callback_frame_refl w : callback_frame w w.
Proof.
  constructor; auto. exists []. now rewrite app_nil_r.
Qed.

Lemma callback_frame_trans w1 w2 w3 :
  callback_frame w1 w2 -> callback_frame w2 w3 -> callback_frame w1 w3.
Proof.
  intros [] []. constructor; try congruence; auto.
  destruct cf_trace0 as [p1 E1], cf_trace1 as [p2 E2].
  exists (p1 ++ p2). now rewrite E2, E1, app_assoc.
Qed.

Lemma callback_frame_emit e w : callback_frame w (emit e w).
Proof. constructor; auto. now exists [e]. Qed.

Lemma callback_frame_set_event w : callback_frame w (with_self set_event w).
Proof. constructor; auto. exists []. now rewrite app_nil_r. Qed.

Lemma callback_frame_set_success w : callback_frame w (with_self set_success w).
Proof. constructor; auto. exists []. now rewrite app_nil_r. Qed.

Lemma log_warnings_app ls w :
  log_warnings ls w =
  {| self := self w; callbacks := callbacks w; next_route := next_route w;
     connected := connected w; outbox := outbox w; timers := timers w;
     next_timer := next_timer w; clock := clock w;
     trace := trace w ++ map (fun l => Warning (fst l) (snd l)) ls |}.
Proof.
  unfold log_warnings. revert w.
  induction ls as [|l ls IH]; intros w; simpl.
  - rewrite app_nil_r. now destruct w.
  - rewrite IH. simpl. now rewrite <- app_assoc.
Qed.

Lemma callback_frame_log_warnings ls w : callback_frame w (log_warnings ls w).
Proof. rewrite log_warnings_app. constructor; simpl; auto. eauto. Qed.

Lemma call_hook_frame h f w : callback_frame w (snd (call_hook h f w)).
Proof.
  unfold call_hook. destruct (snd (h f)); simpl; apply callback_frame_log_warnings.
Qed.

Lemma call_hook_self h f w : self (snd (call_hook h f w)) = self w.
Proof.
  unfold call_hook. destruct (snd (h f)); simpl; now rewrite log_warnings_app.
Qed.

Lemma call_hook_trace h f w :
  trace (snd (call_hook h f w)) =
  trace w ++ map (fun l => Warning (fst l) (snd l)) (fst (h f)).
Proof.
  unfold call_hook. destruct (snd (h f)); simpl; now rewrite log_warnings_app.
Qed.

Lemma call_hook_not_blocked h f w : fst (call_hook h f w) <> Blocked.
Proof. unfold call_hook. now destruct (snd (h f)). Qed.

(** The three ways through [response_rec_callback]. *)
Lemma response_rec_callback_mismatch d f w :
  isinstance f (awaited_response_class (self w)) = false ->
  response_rec_callback d f w =
  (Done tt, emit (Warning "Cant understand knxipframe" None) w).
Proof.
  intros H. unfold response_rec_callback, bind, gets, modify. now rewrite H.
Qed.

Lemma response_rec_callback_no_error d f w :
  isinstance f (awaited_response_class (self w)) = true ->
  status_code f = Some E_NO_ERROR ->
  response_rec_callback d f w =
  call_hook (on_success_hook d) f
    (emit (CalledSuccessHook f)
       (with_self set_success (emit EventSet (with_self set_event w)))).
Proof.
  intros H E. unfold response_rec_callback, bind, gets, modify.
  rewrite H, E. simpl. now destruct (decide (E_NO_ERROR = E_NO_ERROR)).
Qed.

Lemma response_rec_callback_error d f c w :
  isinstance f (awaited_response_class (self w)) = true ->
  status_code f = Some c ->
  c <> E_NO_ERROR ->
  response_rec_callback d f w =
  call_hook (on_error_hook d) f
    (emit (CalledErrorHook f) (emit EventSet (with_self set_event w))).
Proof.
  intros H E N. unfold response_rec_callback, bind, gets, modify.
  rewrite H, E. simpl. now destruct (decide (c = E_NO_ERROR)).
Qed.

Lemma response_rec_callback_no_status d f w :
  isinstance f (awaited_response_class (self w)) = true ->
  status_code f = None ->
  response_rec_callback d f w =
  (Raise AttributeError, emit EventSet (with_self set_event w)).
Proof.
  intros H E. unfold response_rec_callback, bind, gets, modify.
  now rewrite H, E.
Qed.

(** Whatever the frame, the handler is a callback in the sense above. *)
Lemma response_rec_callback_frame d f w :
  callback_frame w (snd (response_rec_callback d f w)).
Proof.
  destruct (isinstance f (awaited_response_class (self w))) eqn:H.
  - assert (B : callback_frame w (emit EventSet (with_self set_event w))).
    { eapply callback_frame_trans;
        [apply callback_frame_set_event | apply callback_frame_emit]. }
    destruct (status_code f) as [c|] eqn:E.
    + destruct (decide (c = E_NO_ERROR)) as [->|N].
      * rewrite response_rec_callback_no_error by assumption.
        eapply callback_frame_trans; [|apply call_hook_frame].
        eapply callback_frame_trans; [|apply callback_frame_emit].
        eapply callback_frame_trans; [exact B|apply callback_frame_set_success].
      * rewrite (response_rec_callback_error d f c) by assumption.
        eapply callback_frame_trans; [|apply call_hook_frame].
        eapply callback_frame_trans; [exact B|apply callback_frame_emit].
    + rewrite response_rec_callback_no_status by assumption. exact B.
  - rewrite response_rec_callback_mismatch by assumption.
    apply callback_frame_emit.
Qed.

(** A frame of the awaited class sets the flag, hook or no hook, and the
    first thing the handler does is to set it. *)
Lemma response_rec_callback_sets_flag d f w :
  isinstance f (awaited_response_class (self w)) = true ->
  flag (snd (response_rec_callback d f w)) = true /\
  exists post, trace (snd (response_rec_callback d f w)) =
               trace w ++ EventSet :: post.
Proof.
  intros H. destruct (status_code f) as [c|] eqn:E.
  - destruct (decide (c = E_NO_ERROR)) as [->|N].
    + rewrite response_rec_callback_no_error by assumption.
      unfold flag. rewrite call_hook_self, call_hook_trace. simpl.
      split; [reflexivity|]. rewrite <- !app_assoc. simpl. eauto.
    + rewrite (response_rec_callback_error d f c) by assumption.
      unfold flag. rewrite call_hook_self, call_hook_trace. simpl.
      split; [reflexivity|]. rewrite <- !app_assoc. simpl. eauto.
  - rewrite response_rec_callback_no_status by assumption. simpl.
    split; [reflexivity|]. eauto.
Qed.

Lemma response_rec_callback_not_blocked d f w :
  fst (response_rec_callback d f w) <> Blocked.
Proof.
  destruct (isinstance f (awaited_response_class (self w))) eqn:H.
  - destruct (status_code f) as [c|] eqn:E.
    + destruct (decide (c = E_NO_ERROR)) as [->|N].
      * rewrite response_rec_callback_no_error by assumption.
        apply call_hook_not_blocked.
      * rewrite (response_rec_callback_error d f c) by assumption.
        apply call_hook_not_blocked.
    + now rewrite response_rec_callback_no_status by assumption.
  - now rewrite response_rec_callback_mismatch by assumption.
Qed.

Lemma timeout_eq w :
  timeout w = (Done tt, emit EventSet (with_self set_event w)).
Proof. reflexivity. Qed.

Lemma timeout_frame w : callback_frame w (snd (timeout w)).
Proof.
  rewrite timeout_eq. simpl.
  eapply callback_frame_trans;
    [apply callback_frame_set_event | apply callback_frame_emit].
Qed.

End HandlerFacts.

Section LoopFacts.
Context {K : KnxIp}.

Lemma loop_frame_of_callback w w' : callback_frame w w' -> loop_frame w w'.
Proof. intros []. constructor; auto. Qed.

Lemma loop_frame_trans w1 w2 w3 :
  loop_frame w1 w2 -> loop_frame w2 w3 -> loop_frame w1 w3.
Proof.
  intros [] []. constructor; try congruence; auto.
  destruct lf_trace0 as [p1 E1], lf_trace1 as [p2 E2].
  exists (p1 ++ p2). now rewrite E2, E1, app_assoc.
Qed.

Lemma invoke_frame d cb f w : callback_frame w (snd (invoke d cb f w)).
Proof.
  destruct cb; simpl; [apply response_rec_callback_frame | apply callback_frame_refl].
Qed.

Lemma fan_out_frame d rs f w : callback_frame w (snd (fan_out d rs f w)).
Proof.
  revert w. induction rs as [|r rs IH]; intros w; simpl.
  - apply callback_frame_refl.
  - destruct (has_service r f); [|apply IH].
    unfold bind. pose proof (invoke_frame d (route_callback r) f w) as F.
    destruct (invoke d (route_callback r) f w) as [[[]|e|] w1]; simpl in *;
      try exact F.
    eapply callback_frame_trans; [exact F|apply IH].
Qed.

Lemma dispatch_frame d f w : callback_frame w (snd (dispatch d f w)).
Proof. unfold dispatch, bind, gets. apply fan_out_frame. Qed.

Lemma fire_frame t w : callback_frame w (snd (fire t w)).
Proof.
  unfold fire. destruct (timer_callback t);
    [apply timeout_frame | apply callback_frame_refl].
Qed.

Lemma fire_done t w : fst (fire t w) = Done tt.
Proof. unfold fire. now destruct (timer_callback t). Qed.

Lemma fire_all_frame ts w : callback_frame w (snd (fire_all ts w)).
Proof.
  revert w. induction ts as [|t ts IH]; intros w; simpl.
  - apply callback_frame_refl.
  - unfold bind. pose proof (fire_frame t w) as F. pose proof (fire_done t w) as D.
    destruct (fire t w) as [r w1]; simpl in *; subst r.
    eapply callback_frame_trans; [exact F|apply IH].
Qed.

(** Running the timeout among the due callbacks sets the flag. *)
Lemma fire_all_sets_flag ts w :
  (exists t, In t ts /\ timer_callback t = timeout_of_self) ->
  flag (snd (fire_all ts w)) = true.
Proof.
  revert w. induction ts as [|t ts IH]; intros w [t0 [I C]]; [destruct I|].
  simpl. unfold bind. pose proof (fire_done t w) as D.
  destruct (fire t w) as [r w1] eqn:E; simpl in *; subst r.
  destruct I as [->|I].
  - apply (cf_flag _ _ (fire_all_frame ts w1)).
    unfold fire in E. rewrite C in E. rewrite timeout_eq in E.
    now inversion E.
  - apply IH. eauto.
Qed.

Lemma advance_to_eq t w :
  advance_to t w =
  fire_all (List.filter (due t) (timers w))
    (with_clock t (with_timers (map (run_due t) (timers w)) (next_timer w) w)).
Proof. reflexivity. Qed.

Lemma horizon_ge w h :
  In h (timers w) -> pending h = true -> (timer_when h <= horizon w)%Z.
Proof.
  unfold horizon. induction (timers w) as [|h0 ts IH]; intros I P; [destruct I|].
  simpl. destruct I as [->|I].
  - rewrite P. lia.
  - specialize (IH I P). destruct (pending h0); lia.
Qed.

Lemma horizon_clock w : (clock w <= horizon w)%Z.
Proof.
  unfold horizon. induction (timers w) as [|h0 ts IH]; simpl; [lia|].
  destruct (pending h0); lia.
Qed.

Lemma mark_fired_not_pending h : pending h = false -> mark_fired h = h.
Proof. unfold mark_fired. now intros ->. Qed.

Lemma elapse_eq w :
  elapse w =
  fire_all (List.filter pending (timers w))
    (with_clock (horizon w)
       (with_timers (map mark_fired (timers w)) (next_timer w) w)).
Proof.
  unfold elapse, bind, gets. rewrite advance_to_eq.
  assert (F : List.filter (due (horizon w)) (timers w) =
              List.filter pending (timers w)).
  { apply filter_ext_in. intros h I. unfold due.
    destruct (pending h) eqn:P; [|reflexivity]. simpl.
    apply Z.leb_le. now apply horizon_ge. }
  assert (G : map (run_due (horizon w)) (timers w) = map mark_fired (timers w)).
  { apply map_ext_in. intros h I. unfold run_due.
    destruct (Z.leb_spec (timer_when h) (horizon w)) as [L|L]; [reflexivity|].
    destruct (pending h) eqn:P.
    - pose proof (horizon_ge w h I P). lia.
    - symmetry. now apply mark_fired_not_pending. }
  now rewrite F, G.
Qed.

Lemma advance_to_frame t w : loop_frame w (snd (advance_to t w)).
Proof.
  rewrite advance_to_eq.
  eapply loop_frame_trans;
    [|apply loop_frame_of_callback, fire_all_frame].
  constructor; auto. exists []. now rewrite app_nil_r.
Qed.

Lemma advance_to_timers t w :
  timers (snd (advance_to t w)) = map (run_due t) (timers w).
Proof. rewrite advance_to_eq. now rewrite (cf_timers _ _ (fire_all_frame _ _)). Qed.

Lemma advance_to_clock t w : clock (snd (advance_to t w)) = t.
Proof. rewrite advance_to_eq. now rewrite (cf_clock _ _ (fire_all_frame _ _)). Qed.

Lemma elapse_frame w : loop_frame w (snd (elapse w)).
Proof. apply advance_to_frame. Qed.

Lemma pass_frame dt w : loop_frame w (snd (pass dt w)).
Proof. apply advance_to_frame. Qed.

Lemma pass_clock dt w : clock (snd (pass dt w)) = (clock w + Z.max 0 dt)%Z.
Proof. apply advance_to_clock. Qed.

Lemma elapse_armed_sets_flag w : armed w -> flag (snd (elapse w)) = true.
Proof.
  intros [t [I [P C]]]. rewrite elapse_eq. apply fire_all_sets_flag.
  exists t. split; [|exact C]. apply filter_In. now split.
Qed.

Lemma armed_callback_frame w w' : callback_frame w w' -> armed w -> armed w'.
Proof. intros F [t A]. exists t. now rewrite (cf_timers _ _ F). Qed.

Lemma fire_all_foreign ts w :
  Forall (fun t => timer_callback t <> timeout_of_self) ts ->
  fire_all ts w = (Done tt, w).
Proof.
  induction 1 as [|t ts N _ IH]; simpl; [reflexivity|].
  unfold bind, fire. destruct (timer_callback t); [congruence|]. exact IH.
Qed.

Lemma loop_step_frame d ev w : loop_frame w (loop_step d ev w).
Proof.
  destruct ev; simpl.
  - apply loop_frame_of_callback, dispatch_frame.
  - apply elapse_frame.
  - apply loop_frame_of_callback, callback_frame_refl.
  - apply pass_frame.
  - apply loop_frame_of_callback, callback_frame_refl.
Qed.

Lemma loop_frame_refl w : loop_frame w w.
Proof. apply loop_frame_of_callback, callback_frame_refl. Qed.

(** *** The wait *)

(** What holds from event to event holds over the wait. *)
Lemma waiting_rel (R : World -> World -> Prop) d full :
  (forall w, R w w) ->
  (forall a b c, R a b -> R b c -> R a c) ->
  (forall ev w, In ev full -> R w (loop_step d ev w)) ->
  forall sched held doomed w,
    incl sched full -> R w (snd (waiting d held doomed sched w)).
Proof.
  intros Rr Rt Rs. induction sched as [|ev rest IH]; intros held doomed w I.
  - simpl. destruct doomed; [apply Rr|].
    destruct (response_received_or_timeout (self w)); apply Rr.
  - assert (Iev : In ev full) by (apply I; now left).
    assert (Irest : incl rest full) by (intros x X; apply I; now right).
    simpl. destruct held as [|k].
    + destruct doomed; [apply Rr|].
      destruct (response_received_or_timeout (self w)); [apply Rr|].
      destruct ev; try apply Rr;
        (eapply Rt; [apply (Rs _ w Iev) | now apply IH]).
    + destruct ev; try (now apply IH);
        (eapply Rt; [apply (Rs _ w Iev) | now apply IH]).
Qed.

Lemma waiting_frame d held doomed sched w :
  loop_frame w (snd (waiting d held doomed sched w)).
Proof.
  apply (waiting_rel loop_frame d sched).
  - apply loop_frame_refl.
  - apply loop_frame_trans.
  - intros ev w0 _. apply loop_step_frame.
  - apply incl_refl.
Qed.

Lemma waiting_done_flag d sched : forall held doomed w,
  fst (waiting d held doomed sched w) = Done tt ->
  flag (snd (waiting d held doomed sched w)) = true.
Proof.
  unfold flag. induction sched as [|ev rest IH]; intros held doomed w; simpl.
  - destruct doomed; [discriminate|].
    destruct (response_received_or_timeout (self w)) eqn:E;
      [intros _; exact E|discriminate].
  - destruct held as [|k].
    + destruct doomed; [discriminate|].
      destruct (response_received_or_timeout (self w)) eqn:E;
        [intros _; exact E|].
      destruct ev; try discriminate; apply IH.
    + destruct ev; apply IH.
Qed.

Lemma waiting_raise d sched : forall held doomed w e,
  fst (waiting d held doomed sched w) = Raise e ->
  e = CancelledError /\ (doomed = true \/ In CancelTask sched).
Proof.
  induction sched as [|ev rest IH]; intros held doomed w e; simpl.
  - destruct doomed; [intros [= <-]; auto|].
    destruct (response_received_or_timeout (self w)); discriminate.
  - destruct held as [|k].
    + destruct doomed; [intros [= <-]; auto|].
      destruct (response_received_or_timeout (self w)); [discriminate|].
      destruct ev; try (intros [= <-]; auto);
        intros H; destruct (IH _ _ _ _ H) as [-> [D|I]];
          try discriminate; auto.
    + destruct ev; intros H; destruct (IH _ _ _ _ H) as [-> [D|I]]; auto.
Qed.

(** Once the flag is set the waiter goes on, sooner or later. *)
Lemma waiting_flag_not_blocked d sched : forall held doomed w,
  flag w = true -> fst (waiting d held doomed sched w) <> Blocked.
Proof.
  unfold flag. induction sched as [|ev rest IH]; intros held doomed w F; simpl.
  - destruct doomed; [discriminate|]. now rewrite F.
  - destruct held as [|k].
    + destruct doomed; [discriminate|]. now rewrite F.
    + destruct ev; apply IH; try exact F;
        apply (lf_flag _ _ (loop_step_frame d _ w) F).
Qed.

Lemma wait_flag_set d sched w : flag w = true -> wait d sched w = (Done tt, w).
Proof. unfold flag, wait. intros H. destruct sched; simpl; now rewrite H. Qed.

Lemma wait_frame d sched w : loop_frame w (snd (wait d sched w)).
Proof. apply waiting_frame. Qed.

Lemma wait_done_flag d sched w :
  fst (wait d sched w) = Done tt -> flag (snd (wait d sched w)) = true.
Proof. apply waiting_done_flag. Qed.

Lemma wait_raise d sched w e :
  fst (wait d sched w) = Raise e ->
  e = CancelledError /\ In CancelTask sched.
Proof.
  intros H. destruct (waiting_raise d sched 0 false w e H) as [-> [D|I]];
    [discriminate|now split].
Qed.

Lemma wait_step d ev rest w :
  flag w = false ->
  wait d (ev :: rest) w =
  match ev with
  | Datagram f => wait d rest (snd (dispatch d f w))
  | Elapse => wait d rest (snd (elapse w))
  | CancelTask => (Raise CancelledError, w)
  | Pass dt => wait d rest (snd (pass dt w))
  | Burst n => waiting d n false rest w
  end.
Proof. unfold flag, wait. intros F. simpl. rewrite F. now destruct ev. Qed.

(** While the timeout is armed, a loop in which the delay passes does not
    leave the waiter suspended. *)
Lemma waiting_armed_elapse d sched : forall held doomed w,
  armed w \/ flag w = true ->
  In Elapse sched -> fst (waiting d held doomed sched w) <> Blocked.
Proof.
  induction sched as [|ev rest IH]; intros held doomed w A I; [destruct I|].
  destruct A as [A|F]; [|now apply waiting_flag_not_blocked].
  assert (N : forall h dm, ev <> Elapse ->
              fst (waiting d h dm rest (loop_step d ev w)) <> Blocked).
  { intros h dm NE. destruct I as [->|I]; [congruence|].
    apply IH; [|exact I]. destruct ev; simpl; auto; try congruence.
    - left. eapply armed_callback_frame; [apply dispatch_frame|exact A].
    - destruct A as [t [It [P C]]].
      destruct (Z.leb_spec (timer_when t) (clock w + Z.max 0 dt)) as [L|L].
      + right. unfold pass, bind, gets. rewrite advance_to_eq.
        apply fire_all_sets_flag. exists t. split; [|exact C].
        apply filter_In. split; [exact It|]. unfold due. rewrite P. simpl.
        now apply Z.leb_le.
      + left. exists t. unfold pass, bind, gets. rewrite advance_to_timers.
        split; [|now split]. apply in_map_iff. exists t. split; [|exact It].
        unfold run_due. destruct (Z.leb_spec (timer_when t) (clock w + Z.max 0 dt));
          [lia|reflexivity]. }
  assert (E : forall h dm,
              fst (waiting d h dm rest (snd (elapse w))) <> Blocked).
  { intros h dm. apply waiting_flag_not_blocked.
    now apply elapse_armed_sets_flag. }
  simpl. destruct held as [|k].
  - destruct doomed; [discriminate|].
    destruct (response_received_or_timeout (self w)); [discriminate|].
    destruct ev; try discriminate; try apply E;
      try (apply (N 0%nat false); discriminate).
    apply (N n false). discriminate.
  - destruct ev; try apply E; apply (N k _); discriminate.
Qed.

Lemma wait_armed_elapse d sched w :
  armed w -> In Elapse sched -> fst (wait d sched w) <> Blocked.
Proof. intros A. apply waiting_armed_elapse. now left. Qed.

End LoopFacts.

(** * The claims about the two handlers *)

Section Handlers.
Context {K : KnxIp}.

Lemma hook_calls_app tr1 tr2 :
  hook_calls (tr1 ++ tr2) = hook_calls tr1 ++ hook_calls tr2.
Proof. unfold hook_calls. apply filter_app. Qed.

Lemma hook_calls_warnings ls :
  hook_calls (map (fun l : string * option ErrorCode => Warning (fst l) (snd l)) ls) = [].
Proof. induction ls; simpl; auto. Qed.

Lemma fan_out_sets_flag d rs f w :
  isinstance f (awaited_response_class (self w)) = true ->
  (exists r, In r rs /\ route_callback r = response_rec_callback_of_self /\
             has_service r f = true) ->
  flag (snd (fan_out d rs f w)) = true.
Proof.
  revert w. induction rs as [|r rs IH]; intros w A [r0 [I [C S]]]; [destruct I|].
  simpl. destruct (has_service r f) eqn:HS.
  - unfold bind. destruct (route_callback r) eqn:RC; simpl.
    + destruct (response_rec_callback_sets_flag d f w A) as [F _].
      destruct (response_rec_callback d f w) as [[[]|e|] w1]; simpl in *; auto.
      apply (cf_flag _ _ (fan_out_frame d rs f w1)). exact F.
    + apply IH; [exact A|]. destruct I as [->|I]; [congruence|eauto].
  - apply IH; [exact A|]. destruct I as [->|I]; [congruence|eauto].
Qed.

(** C7: a frame whose body is not of the awaited response class is logged
    and ignored. [response_rec_callback] returns after the warning "Cant
    understand knxipframe": the attributes (the completion event and
    [success] among them) are as before, no hook was invoked, and the
    transaction's outcome is what it was. *)
Theorem mismatch_logged_and_ignored d w f :
  isinstance f (awaited_response_class (self w)) = false ->
  let r := response_rec_callback d f w in
  fst r = Done tt /\
  self (snd r) = self w /\
  flag (snd r) = flag w /\
  outcome (snd r) = outcome w /\
  trace (snd r) = trace w ++ [Warning "Cant understand knxipframe" None] /\
  hook_calls (trace (snd r)) = hook_calls (trace w).
Proof.
  intros H r. subst r. rewrite response_rec_callback_mismatch by exact H.
  simpl. repeat split. rewrite hook_calls_app. simpl. apply app_nil_r.
Qed.

(** C6, amended. A frame of the awaited response class with status
    [ErrorCode.E_NO_ERROR] sets the completion event and [success], so that
    the outcome is success, and invokes [on_success_hook] with the frame.
    With any other status code the event is set and [on_error_hook] is
    invoked with the frame, but [success] is not written: it stays as it
    was, so that the outcome is a failure only for a transaction that had
    not succeeded before. The error hook of the base class logs a warning
    with the status code and returns. *)
Theorem response_classified_by_status d w f c :
  isinstance f (awaited_response_class (self w)) = true ->
  status_code f = Some c ->
  let r := response_rec_callback d f w in
  (c = E_NO_ERROR ->
     r = call_hook (on_success_hook d) f
           (emit (CalledSuccessHook f)
              (with_self set_success (emit EventSet (with_self set_event w)))) /\
     outcome (snd r) = Succeeded /\
     hook_calls (trace (snd r)) = hook_calls (trace w) ++ [CalledSuccessHook f]) /\
  (c <> E_NO_ERROR ->
     r = call_hook (on_error_hook d) f
           (emit (CalledErrorHook f) (emit EventSet (with_self set_event w))) /\
     flag (snd r) = true /\
     success (self (snd r)) = success (self w) /\
     (success (self w) = false -> outcome (snd r) = Unsuccessful) /\
     hook_calls (trace (snd r)) = hook_calls (trace w) ++ [CalledErrorHook f] /\
     (on_error_hook d = base_on_error_hook ->
        fst r = Done tt /\
        trace (snd r) =
        trace w ++
        [EventSet; CalledErrorHook f;
         Warning "Error: reading rading group address from KNX bus failed: %s"
                 (Some c)])).
Proof.
  intros H E r. subst r. split.
  - intros ->. rewrite response_rec_callback_no_error by assumption.
    split; [reflexivity|]. unfold outcome, flag.
    rewrite call_hook_self, call_hook_trace. simpl. split; [reflexivity|].
    rewrite !hook_calls_app, hook_calls_warnings. simpl.
    now rewrite !app_nil_r.
  - intros N. rewrite (response_rec_callback_error d f c) by assumption.
    split; [reflexivity|]. unfold outcome, flag.
    rewrite call_hook_self, call_hook_trace. simpl.
    split; [reflexivity|]. split; [reflexivity|].
    split; [now intros ->|]. split.
    + rewrite !hook_calls_app, hook_calls_warnings. simpl.
      now rewrite !app_nil_r.
    + intros ->. unfold call_hook, base_on_error_hook. simpl.
      rewrite E. split; [reflexivity|]. now rewrite <- !app_assoc.
Qed.

(** C9: for a frame of the awaited response class the completion event is
    set before anything else happens: it is the first effect of the handler,
    the hook that the status code selects is invoked in a world in which
    the event is already set, and the flag is set when the handler ends,
    whether it returns or a hook raises. A waiter whose route gets the frame
    is therefore released, whatever the hooks of the derived class do. *)
Theorem event_set_before_hooks d w f :
  isinstance f (awaited_response_class (self w)) = true ->
  let r := response_rec_callback d f w in
  flag (snd r) = true /\
  (exists post, trace (snd r) = trace w ++ EventSet :: post) /\
  (forall c, status_code f = Some c ->
     exists w1,
       flag w1 = true /\
       hook_calls (trace w1) =
       hook_calls (trace w) ++
       [if decide (c = E_NO_ERROR) then CalledSuccessHook f else CalledErrorHook f] /\
       r = call_hook (if decide (c = E_NO_ERROR)
                      then on_success_hook d else on_error_hook d) f w1) /\
  (forall rest, routed_to_self f w ->
                fst (wait d (Datagram f :: rest) w) = Done tt /\
                flag (snd (wait d (Datagram f :: rest) w)) = true).
Proof.
  intros H r. subst r.
  destruct (response_rec_callback_sets_flag d f w H) as [F T].
  split; [exact F|]. split; [exact T|]. split.
  - intros c E. destruct (decide (c = E_NO_ERROR)) as [->|N].
    + rewrite response_rec_callback_no_error by assumption.
      eexists. split; [|split; [|reflexivity]]; [reflexivity|].
      simpl. rewrite !hook_calls_app. simpl. now rewrite app_nil_r.
    + rewrite (response_rec_callback_error d f c) by assumption.
      eexists. split; [|split; [|reflexivity]]; [reflexivity|].
      simpl. rewrite !hook_calls_app. simpl. now rewrite app_nil_r.
  - intros rest R. destruct (flag w) eqn:E.
    + rewrite (wait_flag_set d _ w E). now split.
    + rewrite (wait_step d (Datagram f) rest w E).
      assert (F' : flag (snd (dispatch d f w)) = true).
      { unfold dispatch, bind, gets. now apply fan_out_sets_flag. }
      rewrite wait_flag_set by exact F'. now split.
Qed.

(** C1, amended. The claim of the terminal outcome is guarded in one
    direction only. After [response_rec_callback] has run, [timeout()]
    changes neither the recorded outcome nor the hooks invoked, and neither
    handler ever clears the completion event. [response_rec_callback] does
    not look at the event: a frame of the awaited class with
    [E_NO_ERROR] that arrives after [timeout()] still sets [success] and
    invokes the success hook. *)
Theorem timeout_after_response_is_inert d w f :
  let w1 := snd (response_rec_callback d f w) in
  let w2 := snd (timeout w1) in
  (flag w1 = true -> outcome w2 = outcome w1) /\
  success (self w2) = success (self w1) /\
  hook_calls (trace w2) = hook_calls (trace w1) /\
  (flag w = true -> flag w1 = true) /\
  flag (snd (timeout w)) = true /\
  (isinstance f (awaited_response_class (self w)) = true ->
   status_code f = Some E_NO_ERROR ->
   let w3 := snd (response_rec_callback d f (snd (timeout w))) in
   outcome w3 = Succeeded /\
   hook_calls (trace w3) = hook_calls (trace w) ++ [CalledSuccessHook f]).
Proof.
  intros w1 w2. subst w2. rewrite timeout_eq. simpl.
  split; [|split; [|split; [|split; [|split]]]].
  - intros F. unfold outcome, flag in *. simpl. now rewrite F.
  - reflexivity.
  - rewrite hook_calls_app. simpl. apply app_nil_r.
  - apply (cf_flag _ _ (response_rec_callback_frame d f w)).
  - reflexivity.
  - intros H E.
    rewrite response_rec_callback_no_error by assumption.
    unfold outcome, flag. rewrite call_hook_self, call_hook_trace. simpl.
    split; [reflexivity|].
    rewrite !hook_calls_app, hook_calls_warnings. simpl.
    now rewrite !app_nil_r.
Qed.

End Handlers.

(** * The claims about [start] *)

Section StartFacts.
Context {K : KnxIp}.

Lemma start_create_raises d sched w e :
  create_knxipframe d = inl e ->
  start d sched w = (Raise e, after_register w).
Proof.
  intros C. unfold start, bind, gets, send_request. simpl. now rewrite C.
Qed.

Lemma start_send_raises d sched w f :
  create_knxipframe d = inr f ->
  connected w = false ->
  start d sched w = (Raise TransportError, after_register w).
Proof.
  intros C N. unfold start, bind, gets, send_request. simpl. rewrite C.
  unfold udp_send. simpl. now rewrite N.
Qed.

Lemma after_arm_handle f w :
  connected w = true ->
  timeout_handle (self (after_arm f w)) = Some (next_timer w).
Proof.
  intros C. unfold after_arm, after_send, after_register, udp_send. simpl.
  now rewrite C.
Qed.

Lemma start_waits d sched w f :
  create_knxipframe d = inr f ->
  connected w = true ->
  start d sched w =
  match wait d sched (after_arm f w) with
  | (Done _, w4) => (Done tt, teardown w w4)
  | (Raise e, w4) => (Raise e, w4)
  | (Blocked, w4) => (Blocked, w4)
  end.
Proof.
  intros C N.
  assert (E : start d sched w =
              bind (wait d sched)
                (fun _ => bind stop_timeout
                            (fun _ => unregister_callback (next_route w)))
                (after_arm f w)).
  { unfold start, send_request, after_arm, after_send, after_register.
    rewrite C. unfold bind, gets, udp_send. simpl. rewrite N. reflexivity. }
  rewrite E. unfold bind at 1.
  pose proof (wait_frame d sched (after_arm f w)) as F.
  destruct (wait d sched (after_arm f w)) as [[[]|e|] w4]; try reflexivity.
  simpl in F. unfold stop_timeout, bind, gets.
  rewrite (lf_handle _ _ F), (after_arm_handle f w N). reflexivity.
Qed.

Lemma after_arm_armed f w : connected w = true -> armed (after_arm f w).
Proof.
  intros C. unfold armed, after_arm, after_send, after_register, udp_send.
  simpl. rewrite C. simpl. eexists. split.
  - apply in_or_app. right. left. reflexivity.
  - split; reflexivity.
Qed.

Lemma registered_after_register w : registered (next_route w) (after_register w) = true.
Proof.
  unfold registered, after_register. simpl. rewrite existsb_app. simpl.
  rewrite Nat.eqb_refl. simpl. apply orb_true_r.
Qed.

Lemma registered_callbacks id w w' :
  callbacks w' = callbacks w -> registered id w' = registered id w.
Proof. unfold registered. now intros ->. Qed.

Lemma timer_pending_timers id w w' :
  timers w' = timers w -> timer_pending id w' = timer_pending id w.
Proof. unfold timer_pending. now intros ->. Qed.

Lemma registered_after_arm f w :
  connected w = true -> registered (next_route w) (after_arm f w) = true.
Proof.
  intros C. rewrite <- (registered_after_register w).
  apply registered_callbacks.
  unfold after_arm, after_send, after_register, udp_send. simpl.
  now rewrite C.
Qed.

Lemma timer_pending_after_arm f w :
  connected w = true -> timer_pending (next_timer w) (after_arm f w) = true.
Proof.
  intros C. unfold timer_pending, after_arm, after_send, after_register, udp_send.
  simpl. rewrite C. simpl. rewrite existsb_app. simpl.
  rewrite Nat.eqb_refl. simpl. apply orb_true_r.
Qed.

Lemma unregistered_after_teardown w0 w : registered (next_route w0) (teardown w0 w) = false.
Proof.
  unfold registered, teardown. simpl.
  induction (callbacks w) as [|r rs IH]; simpl; [reflexivity|].
  destruct (Nat.eqb (route_id r) (next_route w0)) eqn:E; simpl; [exact IH|].
  now rewrite E.
Qed.

Lemma disarmed_after_teardown w0 w : timer_pending (next_timer w0) (teardown w0 w) = false.
Proof.
  unfold timer_pending, teardown. simpl.
  induction (timers w) as [|t ts IH]; simpl; [reflexivity|].
  rewrite IH, orb_false_r. unfold cancel_timer.
  destruct (Nat.eqb (timer_id t) (next_timer w0)) eqn:E; simpl.
  - rewrite E. reflexivity.
  - now rewrite E.
Qed.

Lemma teardown_trace w0 w :
  trace (teardown w0 w) =
  trace w ++ [Disarmed (next_timer w0); Unregistered (next_route w0)].
Proof. unfold teardown. simpl. now rewrite <- app_assoc. Qed.

Lemma after_arm_trace f w :
  connected w = true ->
  trace (after_arm f w) =
  trace w ++ [Registered (next_route w) (own_types w); Sent (normalize f);
              Armed (next_timer w) (timeout_in_seconds (self w))].
Proof.
  intros C. unfold after_arm, after_send, after_register, udp_send. simpl.
  rewrite C. simpl. now rewrite <- !app_assoc.
Qed.

(** A [start] that returned went through send, wait and teardown. *)
Lemma start_done_inv d sched w w' :
  start d sched w = (Done tt, w') ->
  exists f w4,
    create_knxipframe d = inr f /\ connected w = true /\
    wait d sched (after_arm f w) = (Done tt, w4) /\ w' = teardown w w4.
Proof.
  intros S. destruct (create_knxipframe d) as [e|f] eqn:C.
  - rewrite (start_create_raises d sched w e C) in S. discriminate.
  - destruct (connected w) eqn:N.
    + rewrite (start_waits d sched w f C N) in S.
      destruct (wait d sched (after_arm f w)) as [[[]|e|] w4] eqn:W;
        inversion S.
      exists f, w4. auto.
    + rewrite (start_send_raises d sched w f C N) in S. discriminate.
Qed.

End StartFacts.

Section StartClaims.
Context {K : KnxIp}.

(** C3, amended. When [udpclient.send] fails, [start] raises the transport
    error to its caller at once and no timeout is armed: the loop's timers
    and [timeout_handle] are as before and nothing was sent. [start] has
    registered its route before it sends and does not unregister it on this
    path, so the route is in the registry when the error reaches the
    caller. *)
Theorem send_failure_is_synchronous d sched w f :
  create_knxipframe d = inr f ->
  connected w = false ->
  let r := start d sched w in
  fst r = Raise TransportError /\
  timers (snd r) = timers w /\
  timeout_handle (self (snd r)) = timeout_handle (self w) /\
  outbox (snd r) = outbox w /\
  callbacks (snd r) = callbacks w ++ [own_route w] /\
  registered (next_route w) (snd r) = true /\
  trace (snd r) = trace w ++ [Registered (next_route w) (own_types w)].
Proof.
  intros C N r. subst r. rewrite (start_send_raises d sched w f C N).
  simpl. repeat split. apply (registered_after_register w).
Qed.

(** C5: in every run of [start] that returns, the route for the service type
    of the awaited response class was registered before the request frame
    was sent (it is in the registry when [send_request] runs, and
    [Registered] precedes [Sent] in the trace), it stays in the registry
    during the wait, and it is unregistered, as the last effect, before
    [start] returns. *)
Theorem route_lives_within_start d sched w w' :
  start d sched w = (Done tt, w') ->
  exists f w4 mid,
    create_knxipframe d = inr f /\
    registered (next_route w) (after_register w) = true /\
    wait d sched (after_arm f w) = (Done tt, w4) /\
    callbacks w4 = callbacks w ++ [own_route w] /\
    trace w' =
    trace w ++ Registered (next_route w) (own_types w) ::
               Sent (normalize f) :: mid ++ [Unregistered (next_route w)] /\
    registered (next_route w) w' = false.
Proof.
  intros S. destruct (start_done_inv d sched w w' S) as [f [w4 [C [N [W ->]]]]].
  pose proof (wait_frame d sched (after_arm f w)) as F. rewrite W in F.
  simpl in F. destruct (lf_trace _ _ F) as [post T].
  exists f, w4,
    (Armed (next_timer w) (timeout_in_seconds (self w)) :: post ++
     [Disarmed (next_timer w)]).
  split; [exact C|]. split; [apply registered_after_register|].
  split; [exact W|]. split; [|split].
  - rewrite (lf_callbacks _ _ F).
    unfold after_arm, after_send, after_register, udp_send. simpl.
    now rewrite N.
  - rewrite teardown_trace, T, after_arm_trace by exact N.
    rewrite <- !app_assoc. simpl. rewrite <- !app_assoc. reflexivity.
  - apply unregistered_after_teardown.
Qed.

End StartClaims.

(** * What the caller learns *)

Section Reporting.
Context {K : KnxIp}.

Lemma success_tracks_refl w : success_tracks w w.
Proof. exists []. now rewrite app_nil_r, orb_false_r. Qed.

Lemma success_tracks_trans w1 w2 w3 :
  success_tracks w1 w2 -> success_tracks w2 w3 -> success_tracks w1 w3.
Proof.
  intros [p1 [T1 S1]] [p2 [T2 S2]]. exists (p1 ++ p2). split.
  - now rewrite T2, T1, app_assoc.
  - unfold success_called in *. now rewrite existsb_app, S2, S1, orb_assoc.
Qed.

Lemma success_called_warnings ls :
  success_called (map (fun l : string * option ErrorCode => Warning (fst l) (snd l)) ls) = false.
Proof. induction ls; simpl; auto. Qed.

Lemma call_hook_success_tracks h f w : success_tracks w (snd (call_hook h f w)).
Proof.
  eexists. split; [apply call_hook_trace|].
  now rewrite call_hook_self, success_called_warnings, orb_false_r.
Qed.

Lemma response_rec_callback_success_tracks d f w :
  success_tracks w (snd (response_rec_callback d f w)).
Proof.
  destruct (isinstance f (awaited_response_class (self w))) eqn:H.
  - destruct (status_code f) as [c|] eqn:E.
    + destruct (decide (c = E_NO_ERROR)) as [->|N].
      * rewrite response_rec_callback_no_error by assumption.
        eapply success_tracks_trans; [|apply call_hook_success_tracks].
        exists [EventSet; CalledSuccessHook f]. simpl.
        rewrite <- app_assoc, orb_true_r. now split.
      * rewrite (response_rec_callback_error d f c) by assumption.
        eapply success_tracks_trans; [|apply call_hook_success_tracks].
        exists [EventSet; CalledErrorHook f]. simpl.
        rewrite <- app_assoc, orb_false_r. now split.
    + rewrite response_rec_callback_no_status by assumption.
      exists [EventSet]. simpl. now rewrite orb_false_r.
  - rewrite response_rec_callback_mismatch by assumption.
    eexists. simpl. split; [reflexivity|]. simpl. now rewrite orb_false_r.
Qed.

Lemma fan_out_success_tracks d rs f w : success_tracks w (snd (fan_out d rs f w)).
Proof.
  revert w. induction rs as [|r rs IH]; intros w; simpl.
  - apply success_tracks_refl.
  - destruct (has_service r f); [|apply IH]. unfold bind.
    assert (F : success_tracks w (snd (invoke d (route_callback r) f w))).
    { destruct (route_callback r); simpl;
        [apply response_rec_callback_success_tracks | apply success_tracks_refl]. }
    destruct (invoke d (route_callback r) f w) as [[[]|e|] w1]; simpl in *;
      try exact F.
    eapply success_tracks_trans; [exact F|apply IH].
Qed.

Lemma fire_all_success_tracks ts w :
  success_tracks w (snd (fire_all ts w)) /\
  success (self (snd (fire_all ts w))) = success (self w).
Proof.
  revert w. induction ts as [|t ts IH]; intros w; simpl.
  - split; [apply success_tracks_refl | reflexivity].
  - unfold bind, fire. destruct (timer_callback t); simpl.
    + destruct (IH (emit EventSet (with_self set_event w))) as [T S].
      split; [|exact S].
      eapply success_tracks_trans; [|exact T].
      exists [EventSet]. simpl. now rewrite orb_false_r.
    + apply IH.
Qed.

Lemma advance_to_success t w :
  success_tracks w (snd (advance_to t w)) /\
  success (self (snd (advance_to t w))) = success (self w).
Proof.
  rewrite advance_to_eq.
  destruct (fire_all_success_tracks (List.filter (due t) (timers w))
              (with_clock t
                 (with_timers (map (run_due t) (timers w)) (next_timer w) w)))
    as [T S].
  split; [|exact S].
  eapply success_tracks_trans; [|exact T].
  exists []. simpl. now rewrite app_nil_r, orb_false_r.
Qed.

Lemma elapse_success w :
  success_tracks w (snd (elapse w)) /\
  success (self (snd (elapse w))) = success (self w).
Proof. apply advance_to_success. Qed.

Lemma loop_step_success_tracks d ev w : success_tracks w (loop_step d ev w).
Proof.
  destruct ev; simpl; try apply success_tracks_refl.
  - unfold dispatch, bind, gets. apply fan_out_success_tracks.
  - apply elapse_success.
  - apply advance_to_success.
Qed.

Lemma wait_success_tracks d sched w : success_tracks w (snd (wait d sched w)).
Proof.
  apply (waiting_rel success_tracks d sched).
  - apply success_tracks_refl.
  - apply success_tracks_trans.
  - intros ev w0 _. apply loop_step_success_tracks.
  - apply incl_refl.
Qed.

Lemma start_success_tracks d sched w : success_tracks w (snd (start d sched w)).
Proof.
  assert (R : success_tracks w (after_register w)).
  { eexists. split; [reflexivity|]. simpl. now rewrite orb_false_r. }
  destruct (create_knxipframe d) as [e|f] eqn:C.
  - now rewrite (start_create_raises d sched w e C).
  - destruct (connected w) eqn:N.
    + rewrite (start_waits d sched w f C N).
      assert (A : success_tracks w (after_arm f w)).
      { eexists. split; [apply (after_arm_trace f w N)|].
        unfold after_arm, after_send, after_register, udp_send. simpl.
        rewrite N. simpl. now rewrite orb_false_r. }
      pose proof (wait_success_tracks d sched (after_arm f w)) as W.
      destruct (wait d sched (after_arm f w)) as [[[]|e|] w4]; simpl in *;
        try (eapply success_tracks_trans; [exact A|exact W]).
      eapply success_tracks_trans; [exact A|].
      eapply success_tracks_trans; [exact W|].
      eexists. split; [apply teardown_trace|].
      simpl. now rewrite orb_false_r.
    + now rewrite (start_send_raises d sched w f C N).
Qed.

End Reporting.

Section ReportingClaims.
Context {K : KnxIp}.

Lemma success_tracks_mono w w' :
  success_tracks w w' -> success (self w) = true -> success (self w') = true.
Proof. intros [p [_ S]] H. now rewrite S, H. Qed.

Lemma response_rec_callback_error_keeps_success d f c w :
  status_code f = Some c -> c <> E_NO_ERROR ->
  success (self (snd (response_rec_callback d f w))) = success (self w).
Proof.
  intros E N. destruct (isinstance f (awaited_response_class (self w))) eqn:H.
  - rewrite (response_rec_callback_error d f c) by assumption.
    now rewrite call_hook_self.
  - now rewrite response_rec_callback_mismatch by assumption.
Qed.

Lemma fan_out_error_keeps_success d rs f c w :
  status_code f = Some c -> c <> E_NO_ERROR ->
  success (self (snd (fan_out d rs f w))) = success (self w).
Proof.
  intros E N. revert w. induction rs as [|r rs IH]; intros w; simpl; auto.
  destruct (has_service r f); [|apply IH]. unfold bind.
  assert (F : success (self (snd (invoke d (route_callback r) f w))) = success (self w)).
  { destruct (route_callback r); simpl; auto.
    now apply (response_rec_callback_error_keeps_success d f c). }
  destruct (invoke d (route_callback r) f w) as [[[]|e|] w1]; simpl in *; auto.
  now rewrite IH.
Qed.

Lemma fan_out_no_error_sets_success d rs f w :
  isinstance f (awaited_response_class (self w)) = true ->
  status_code f = Some E_NO_ERROR ->
  (exists r, In r rs /\ route_callback r = response_rec_callback_of_self /\
             has_service r f = true) ->
  success (self (snd (fan_out d rs f w))) = true.
Proof.
  intros A E. revert w A.
  induction rs as [|r rs IH]; intros w A [r0 [I [C S]]]; [destruct I|].
  simpl. destruct (has_service r f) eqn:HS.
  - unfold bind. destruct (route_callback r) eqn:RC; simpl.
    + assert (T : success (self (snd (response_rec_callback d f w))) = true).
      { rewrite response_rec_callback_no_error by assumption.
        now rewrite call_hook_self. }
      destruct (response_rec_callback d f w) as [[[]|e|] w1]; simpl in *; auto.
      apply (success_tracks_mono _ _ (fan_out_success_tracks d rs f w1) T).
    + apply IH; [exact A|]. destruct I as [->|I]; [congruence|eauto].
  - apply IH; [exact A|]. destruct I as [->|I]; [congruence|eauto].
Qed.

Lemma own_route_gets f f0 w :
  connected w = true ->
  header_service_type f = service_type (awaited_response_class (self w)) ->
  routed_to_self f (after_arm f0 w).
Proof.
  intros N H. exists (own_route w). split; [|split].
  - unfold after_arm, after_send, after_register, udp_send. simpl.
    rewrite N. simpl. apply in_or_app. right. now left.
  - reflexivity.
  - unfold has_service, own_route, own_types. simpl.
    rewrite orb_false_r. apply bool_decide_eq_true_2. now rewrite H.
Qed.

Lemma teardown_self w0 w : self (teardown w0 w) = self w.
Proof. reflexivity. Qed.

Lemma after_arm_self f w :
  connected w = true ->
  self (after_arm f w) = set_timeout_handle (next_timer w) (self w).
Proof.
  intros N. unfold after_arm, after_send, after_register, udp_send. simpl.
  now rewrite N.
Qed.

(** C2, amended. [start] returns no value; what the caller has afterwards
    is the attribute [success], which has two states. It changes by a call
    of the success hook only, so it is [True] exactly when a response of the
    awaited class with [E_NO_ERROR] was handled. A run that ends by the
    timeout and a run that ends by a response with another status code
    both return with [success] as it was, [False] since [__init__]: the two
    are reported alike. A run that ends by a response with [E_NO_ERROR]
    returns with [success] set. *)
Theorem success_is_the_only_report d w f0 :
  create_knxipframe d = inr f0 ->
  connected w = true ->
  (forall sched,
     success (self w) = success_called (trace w) ->
     success (self (snd (start d sched w))) =
     success_called (trace (snd (start d sched w)))) /\
  reported (start d [Elapse] w) = (Done tt, success (self w)) /\
  (forall f c,
     isinstance f (awaited_response_class (self w)) = true ->
     header_service_type f = service_type (awaited_response_class (self w)) ->
     status_code f = Some c -> c <> E_NO_ERROR ->
     reported (start d [Datagram f] w) = (Done tt, success (self w))) /\
  (forall f,
     isinstance f (awaited_response_class (self w)) = true ->
     header_service_type f = service_type (awaited_response_class (self w)) ->
     status_code f = Some E_NO_ERROR ->
     flag w = false ->
     reported (start d [Datagram f] w) = (Done tt, true)).
Proof.
  intros C N.
  assert (SF : success (self (after_arm f0 w)) = success (self w))
    by (now rewrite after_arm_self).
  assert (FF : flag (after_arm f0 w) = flag w)
    by (unfold flag; now rewrite after_arm_self).
  assert (AF : awaited_response_class (self (after_arm f0 w)) =
               awaited_response_class (self w))
    by (now rewrite after_arm_self).
  split; [|split; [|split]].
  - intros sched I. destruct (start_success_tracks d sched w) as [p [T S]].
    rewrite S, T, I. unfold success_called. now rewrite existsb_app.
  - unfold reported. rewrite (start_waits d [Elapse] w f0 C N).
    destruct (flag (after_arm f0 w)) eqn:F.
    + rewrite wait_flag_set by exact F. cbn [fst snd].
      now rewrite teardown_self, SF.
    + rewrite (wait_step d Elapse [] _ F).
      rewrite wait_flag_set
        by (apply elapse_armed_sets_flag; now apply after_arm_armed).
      cbn [fst snd]. destruct (elapse_success (after_arm f0 w)) as [_ S].
      now rewrite teardown_self, S, SF.
  - intros f c I H E NE. unfold reported.
    rewrite (start_waits d [Datagram f] w f0 C N).
    destruct (flag (after_arm f0 w)) eqn:F.
    + rewrite wait_flag_set by exact F. cbn [fst snd].
      now rewrite teardown_self, SF.
    + rewrite (wait_step d (Datagram f) [] _ F).
      assert (F' : flag (snd (dispatch d f (after_arm f0 w))) = true).
      { unfold dispatch, bind, gets. apply fan_out_sets_flag.
        - now rewrite AF.
        - apply (own_route_gets f f0 w N H). }
      rewrite wait_flag_set by exact F'. cbn [fst snd].
      rewrite teardown_self. unfold dispatch, bind, gets.
      rewrite (fan_out_error_keeps_success d _ f c) by assumption.
      exact (f_equal _ SF).
  - intros f I H E FW. unfold reported.
    rewrite (start_waits d [Datagram f] w f0 C N).
    rewrite FW in FF. rewrite (wait_step d (Datagram f) [] _ FF).
    assert (A : isinstance f (awaited_response_class (self (after_arm f0 w))) = true)
      by (now rewrite AF).
    assert (F' : flag (snd (dispatch d f (after_arm f0 w))) = true).
    { unfold dispatch, bind, gets. apply fan_out_sets_flag; [exact A|].
      apply (own_route_gets f f0 w N H). }
    rewrite wait_flag_set by exact F'. cbn [fst snd].
    rewrite teardown_self. unfold dispatch, bind, gets.
    rewrite fan_out_no_error_sets_success; auto.
    apply (own_route_gets f f0 w N H).
Qed.

End ReportingClaims.

(** * Properties of [DateTime] *)

Section BroadcastTime.
Variables GroupAddress Clock Bus : Type.
Variable current_datetime_as_knx : Clock -> list Z.
Variable current_date_as_knx : Clock -> list Z.
Variable current_time_as_knx : Clock -> list Z.
Variable send : option GroupAddress -> DateTime.DPTArray -> M Bus unit.

Let broadcast_data :=
  DateTime.broadcast_data GroupAddress Clock
    current_datetime_as_knx current_date_as_knx current_time_as_knx.
Let broadcast_time :=
  DateTime.broadcast_time GroupAddress Clock Bus
    current_datetime_as_knx current_date_as_knx current_time_as_knx send.
Let encoder :=
  DateTime.encoder Clock
    current_datetime_as_knx current_date_as_knx current_time_as_knx.

(** C10: when [broadcast_type] is one of the three members of
    [DateTimeBroadcastType], [broadcast_time] does not get to its
    [raise TypeError()]: [broadcast_data] is the encoding that belongs to
    the member, and the method is the [send] of that payload to the
    device's group address. *)
Theorem broadcast_time_members_send
    (self : DateTime.DateTime GroupAddress) (now : Clock) (bus : Bus)
    (t : DateTime.DateTimeBroadcastType) :
  DateTime.broadcast_type GroupAddress self = DateTime.Member t ->
  broadcast_data self now = inr (encoder t now) /\
  broadcast_data self now <> inl TypeError /\
  broadcast_time self now bus =
  send (DateTime.group_address GroupAddress self)
       (DateTime.mkDPTArray (encoder t now)) bus.
Proof.
  intros H.
  assert (E : broadcast_data self now = inr (encoder t now)).
  { unfold broadcast_data, DateTime.broadcast_data. rewrite H.
    destruct t; repeat (case_decide; try congruence); reflexivity. }
  split; [exact E|]. split; [now rewrite E|].
  unfold broadcast_time, DateTime.broadcast_time.
  fold broadcast_data. now rewrite E.
Qed.

End BroadcastTime.

(** * The properties on concrete runs *)

Import Sample.

(** Without a passing delay and without a response the wait stays
    suspended: [Blocked] is a result the model can give. *)
Example start_without_events_is_suspended :
  fst (start connect [] world0) = Blocked.
Proof. reflexivity. Qed.

Example start_with_other_frames_only_is_suspended :
  fst (start connect [Datagram (response DISCONNECT_RESPONSE 0)] world0) = Blocked.
Proof. reflexivity. Qed.

(** C1 fails as stated: after [timeout()], a connect response with
    [E_NO_ERROR] turns the unsuccessful transaction into a successful one
    and invokes the success hook. *)
Lemma late_response_is_not_ignored :
  ~ late_response_is_ignored connect world0 (response CONNECT_RESPONSE 0).
Proof.
  unfold late_response_is_ignored. intros [H _]. vm_compute in H. discriminate.
Qed.

Lemma timeout_after_response_is_inert_witness :
  isinstance (response CONNECT_RESPONSE 0)
    (awaited_response_class (self world0)) = true /\
  status_code (response CONNECT_RESPONSE 0) = Some E_NO_ERROR /\
  outcome (snd (response_rec_callback connect (response CONNECT_RESPONSE 0)
                  (snd (timeout world0)))) = Succeeded.
Proof.
  split; [reflexivity|]. split; [reflexivity|].
  apply (timeout_after_response_is_inert connect world0
           (response CONNECT_RESPONSE 0)); reflexivity.
Defined.

(** C2 fails as stated: a connect response with [E_NO_MORE_CONNECTIONS] and
    a timeout leave the caller with the same result. *)
Lemma failure_and_timeout_reported_alike :
  ~ failure_and_timeout_reported_apart connect world0
      (response CONNECT_RESPONSE E_NO_MORE_CONNECTIONS).
Proof.
  unfold failure_and_timeout_reported_apart. intros H. apply H.
  vm_compute. reflexivity.
Qed.

Lemma success_is_the_only_report_witness :
  create_knxipframe connect = inr request /\
  connected world0 = true /\
  reported (start connect [Elapse] world0) = (Done tt, false) /\
  reported (start connect
              [Datagram (response CONNECT_RESPONSE E_NO_MORE_CONNECTIONS)] world0) =
  (Done tt, false) /\
  reported (start connect [Datagram (response CONNECT_RESPONSE 0)] world0) =
  (Done tt, true).
Proof.
  pose proof (success_is_the_only_report connect world0 request
                eq_refl eq_refl) as [_ [T [F S]]].
  split; [reflexivity|]. split; [reflexivity|]. split; [exact T|]. split.
  - apply (F (response CONNECT_RESPONSE E_NO_MORE_CONNECTIONS)
             E_NO_MORE_CONNECTIONS); try reflexivity.
    discriminate.
  - apply (S (response CONNECT_RESPONSE 0)); reflexivity.
Defined.

(** C3 fails as stated: with the client offline, [start] raises the
    transport error and the route registered before the send is still in
    the registry. *)
Lemma send_failure_leaves_route :
  ~ send_failure_leaves_nothing connect [] (offline world0).
Proof.
  unfold send_failure_leaves_nothing. intros [_ [_ H]]. vm_compute in H.
  discriminate.
Qed.

Lemma send_failure_is_synchronous_witness :
  create_knxipframe connect = inr request /\
  connected (offline world0) = false /\
  fst (start connect [Elapse] (offline world0)) = Raise TransportError /\
  registered 1 (snd (start connect [Elapse] (offline world0))) = true.
Proof.
  pose proof (send_failure_is_synchronous connect [Elapse] (offline world0)
                request eq_refl eq_refl) as [E [_ [_ [_ [_ [R _]]]]]].
  split; [reflexivity|]. split; [reflexivity|]. split; [exact E|exact R].
Defined.

(** C4 fails as stated: cancelling the task while [start] waits ends it
    with the route registered and the timeout armed. *)
Lemma cancellation_skips_teardown :
  ~ teardown_on_every_exit connect [CancelTask] world0.
Proof.
  unfold teardown_on_every_exit, teardown_done. intros H.
  assert (N : fst (start connect [CancelTask] world0) <> Blocked)
    by (vm_compute; discriminate).
  destruct (H N) as [R _]. vm_compute in R. discriminate.
Qed.

Lemma route_lives_within_start_witness :
  fst (start connect [Datagram (response CONNECT_RESPONSE 0)] world0) = Done tt /\
  registered (next_route world0)
    (snd (start connect [Datagram (response CONNECT_RESPONSE 0)] world0)) = false.
Proof.
  assert (E : start connect [Datagram (response CONNECT_RESPONSE 0)] world0 =
              (Done tt,
               snd (start connect [Datagram (response CONNECT_RESPONSE 0)] world0)))
    by (vm_compute; reflexivity).
  split; [vm_compute; reflexivity|].
  destruct (route_lives_within_start connect
              [Datagram (response CONNECT_RESPONSE 0)] world0 _ E)
    as [f [w4 [mid [_ [_ [_ [_ [_ R]]]]]]]].
  exact R.
Defined.

Lemma mismatch_logged_and_ignored_witness :
  isinstance (response DISCONNECT_RESPONSE 0)
    (awaited_response_class (self world0)) = false /\
  self (snd (response_rec_callback faulty (response DISCONNECT_RESPONSE 0) world0)) =
  self world0.
Proof.
  split; [reflexivity|].
  apply (mismatch_logged_and_ignored faulty world0
           (response DISCONNECT_RESPONSE 0)).
  reflexivity.
Defined.

Lemma response_classified_by_status_witness :
  isinstance (response CONNECT_RESPONSE E_NO_MORE_CONNECTIONS)
    (awaited_response_class (self world0)) = true /\
  success (self world0) = false /\
  E_NO_MORE_CONNECTIONS <> E_NO_ERROR /\
  outcome (snd (response_rec_callback connect
                  (response CONNECT_RESPONSE E_NO_MORE_CONNECTIONS) world0)) =
  Unsuccessful.
Proof.
  split; [reflexivity|]. split; [reflexivity|].
  assert (N : E_NO_MORE_CONNECTIONS <> E_NO_ERROR) by discriminate.
  split; [exact N|].
  destruct (response_classified_by_status connect world0
              (response CONNECT_RESPONSE E_NO_MORE_CONNECTIONS)
              E_NO_MORE_CONNECTIONS eq_refl eq_refl) as [_ F].
  destruct (F N) as [_ [_ [_ [O _]]]].
  apply O. reflexivity.
Defined.

(** The hooks of [faulty] raise; the waiter is released all the same. *)
Lemma event_set_before_hooks_witness :
  isinstance (response CONNECT_RESPONSE 0)
    (awaited_response_class (self world0)) = true /\
  fst (response_rec_callback faulty (response CONNECT_RESPONSE 0) world0) =
  Raise (UserError 1) /\
  flag (snd (response_rec_callback faulty (response CONNECT_RESPONSE 0) world0)) =
  true.
Proof.
  split; [reflexivity|]. split; [reflexivity|].
  apply (event_set_before_hooks faulty world0 (response CONNECT_RESPONSE 0)).
  reflexivity.
Defined.

Lemma broadcast_time_members_send_witness :
  DateTime.broadcast_type nat date_device = DateTime.Member DateTime.DATE /\
  DateTime.broadcast_time nat nat (list Telegram)
    datetime_as_knx date_as_knx time_as_knx put date_device 3723%nat [] =
  (Done tt, [(Some 8%nat, DateTime.mkDPTArray [4; 11; 26]%Z)]).
Proof.
  split; [reflexivity|].
  destruct (broadcast_time_members_send nat nat (list Telegram)
              datetime_as_knx date_as_knx time_as_knx put
              date_device 3723%nat [] DateTime.DATE eq_refl) as [_ [_ E]].
  rewrite E. reflexivity.
Defined.

(** An object that is not a member does reach the last branch. *)
Example broadcast_time_of_other_object_raises :
  DateTime.broadcast_time nat nat (list Telegram)
    datetime_as_knx date_as_knx time_as_knx put odd_device 3723%nat [] =
  (Raise TypeError, []).
Proof. reflexivity. Qed.

(** * More about [RequestResponse]: what the loop can cause *)

Section Justified.
Context {K : KnxIp}.

Lemma justified_incl s s' cls e :
  incl s s' -> justified s cls e -> justified s' cls e.
Proof.
  intros I. destruct e; simpl; auto.
  - intros [H R]. split; auto.
  - intros [H R]. split; auto.
Qed.

Lemma grows_justified_refl s cls w : grows_justified s cls w w.
Proof. exists []. split; [now rewrite app_nil_r | constructor]. Qed.

Lemma grows_justified_trans s cls w1 w2 w3 :
  grows_justified s cls w1 w2 -> grows_justified s cls w2 w3 ->
  grows_justified s cls w1 w3.
Proof.
  intros [p1 [T1 F1]] [p2 [T2 F2]]. exists (p1 ++ p2). split.
  - now rewrite T2, T1, app_assoc.
  - apply Forall_app. now split.
Qed.

Lemma grows_justified_incl s s' cls w w' :
  incl s s' -> grows_justified s cls w w' -> grows_justified s' cls w w'.
Proof.
  intros I [p [T F]]. exists p. split; [exact T|].
  eapply Forall_impl; [|exact F]. intros e. now apply justified_incl.
Qed.

Lemma call_hook_justified s cls h f w :
  grows_justified s cls w (snd (call_hook h f w)).
Proof.
  eexists. split; [apply call_hook_trace|].
  induction (fst (h f)); simpl; constructor; simpl; auto.
Qed.

Lemma response_rec_callback_justified d f w :
  grows_justified [Datagram f] (awaited_response_class (self w)) w
    (snd (response_rec_callback d f w)).
Proof.
  destruct (isinstance f (awaited_response_class (self w))) eqn:H.
  - destruct (status_code f) as [c|] eqn:E.
    + destruct (decide (c = E_NO_ERROR)) as [->|N].
      * rewrite response_rec_callback_no_error by assumption.
        eapply grows_justified_trans; [|apply call_hook_justified].
        exists [EventSet; CalledSuccessHook f]. simpl.
        rewrite <- app_assoc. split; [reflexivity|].
        repeat constructor; simpl; auto.
      * rewrite (response_rec_callback_error d f c) by assumption.
        eapply grows_justified_trans; [|apply call_hook_justified].
        exists [EventSet; CalledErrorHook f]. simpl.
        rewrite <- app_assoc. split; [reflexivity|].
        repeat constructor; simpl; eauto.
    + rewrite response_rec_callback_no_status by assumption.
      exists [EventSet]. simpl. split; [reflexivity|]. now repeat constructor.
  - rewrite response_rec_callback_mismatch by assumption.
    eexists. simpl. split; [reflexivity|]. now repeat constructor.
Qed.

Lemma fan_out_justified d rs f w :
  grows_justified [Datagram f] (awaited_response_class (self w)) w
    (snd (fan_out d rs f w)).
Proof.
  revert w. induction rs as [|r rs IH]; intros w; simpl.
  - apply grows_justified_refl.
  - destruct (has_service r f); [|apply IH]. unfold bind.
    assert (F : grows_justified [Datagram f] (awaited_response_class (self w)) w
                  (snd (invoke d (route_callback r) f w))).
    { destruct (route_callback r); simpl;
        [apply response_rec_callback_justified | apply grows_justified_refl]. }
    pose proof (invoke_frame d (route_callback r) f w) as C.
    destruct (invoke d (route_callback r) f w) as [[[]|e|] w1]; simpl in *;
      try exact F.
    eapply grows_justified_trans; [exact F|].
    rewrite <- (cf_awaited _ _ C). apply IH.
Qed.

Lemma fire_all_justified s cls ts w :
  grows_justified s cls w (snd (fire_all ts w)).
Proof.
  revert w. induction ts as [|t ts IH]; intros w; simpl.
  - apply grows_justified_refl.
  - unfold bind, fire. destruct (timer_callback t); simpl; [|apply IH].
    eapply grows_justified_trans; [|apply IH].
    exists [EventSet]. simpl. split; [reflexivity|]. now repeat constructor.
Qed.

Lemma advance_to_justified s cls t w :
  grows_justified s cls w (snd (advance_to t w)).
Proof.
  rewrite advance_to_eq.
  eapply grows_justified_trans; [|apply fire_all_justified].
  exists []. simpl. split; [now rewrite app_nil_r | constructor].
Qed.

Lemma loop_step_justified d sched ev w :
  In ev sched ->
  grows_justified sched (awaited_response_class (self w)) w (loop_step d ev w).
Proof.
  intros I. destruct ev; simpl; try apply grows_justified_refl.
  - apply (grows_justified_incl [Datagram f]).
    + intros x [<-|[]]. exact I.
    + unfold dispatch, bind, gets. apply fan_out_justified.
  - apply advance_to_justified.
  - apply advance_to_justified.
Qed.

Lemma wait_justified d sched w :
  grows_justified sched (awaited_response_class (self w)) w
    (snd (wait d sched w)).
Proof.
  set (cls := awaited_response_class (self w)).
  assert (G : awaited_response_class (self w) = cls ->
              awaited_response_class (self (snd (wait d sched w))) = cls /\
              grows_justified sched cls w (snd (wait d sched w))).
  { apply (waiting_rel
             (fun a b => awaited_response_class (self a) = cls ->
                         awaited_response_class (self b) = cls /\
                         grows_justified sched cls a b) d sched).
    - intros a A. split; [exact A|apply grows_justified_refl].
    - intros a b c Hab Hbc A. destruct (Hab A) as [B Gab].
      destruct (Hbc B) as [C Gbc]. split; [exact C|].
      eapply grows_justified_trans; eauto.
    - intros ev a I A. split.
      + now rewrite (lf_awaited _ _ (loop_step_frame d ev a)).
      + rewrite <- A. now apply loop_step_justified.
    - apply incl_refl. }
  now apply G.
Qed.

(** The trace of a whole [start], whatever its result: the prefix up to the
    point it got to, what the loop caused, and the teardown if it returned. *)
Lemma start_trace d sched w :
  exists pre post fin,
    trace (snd (start d sched w)) = trace w ++ pre ++ post ++ fin /\
    Forall (justified sched (awaited_response_class (self w))) post /\
    (pre = [Registered (next_route w) (own_types w)] \/
     exists f, create_knxipframe d = inr f /\ connected w = true /\
               pre = [Registered (next_route w) (own_types w); Sent (normalize f);
                      Armed (next_timer w) (timeout_in_seconds (self w))]) /\
    (fin = [] \/
     fst (start d sched w) = Done tt /\
     fin = [Disarmed (next_timer w); Unregistered (next_route w)]).
Proof.
  destruct (create_knxipframe d) as [e|f] eqn:C.
  - rewrite (start_create_raises d sched w e C).
    exists [Registered (next_route w) (own_types w)], [], []. simpl.
    repeat split; auto.
  - destruct (connected w) eqn:N.
    + rewrite (start_waits d sched w f C N).
      destruct (wait_justified d sched (after_arm f w)) as [post [T F]].
      rewrite (after_arm_trace f w N) in T.
      assert (A : awaited_response_class (self (after_arm f w)) =
                  awaited_response_class (self w))
        by (now rewrite after_arm_self).
      rewrite A in F.
      exists [Registered (next_route w) (own_types w); Sent (normalize f);
              Armed (next_timer w) (timeout_in_seconds (self w))], post.
      destruct (wait d sched (after_arm f w)) as [[[]|e|] w4]; cbn [fst snd] in *.
      * exists [Disarmed (next_timer w); Unregistered (next_route w)].
        rewrite teardown_trace, T. rewrite <- !app_assoc.
        repeat split; eauto.
      * exists []. rewrite T, app_nil_r. rewrite <- !app_assoc.
        repeat split; eauto.
      * exists []. rewrite T, app_nil_r. rewrite <- !app_assoc.
        repeat split; eauto.
    + rewrite (start_send_raises d sched w f C N).
      exists [Registered (next_route w) (own_types w)], [], []. simpl.
      repeat split; auto.
Qed.

End Justified.

Section MoreOfStart.
Context {K : KnxIp}.

Lemma justified_quiet s cls post :
  Forall (justified s cls) post ->
  sent_frames post = [] /\ armed_delays post = [].
Proof.
  induction 1 as [|e post J _ [IH1 IH2]]; [now split|].
  destruct e; simpl in *; try contradiction; now split.
Qed.

Lemma sent_frames_app t1 t2 : sent_frames (t1 ++ t2) = sent_frames t1 ++ sent_frames t2.
Proof. unfold sent_frames. apply flat_map_app. Qed.

Lemma armed_delays_app t1 t2 : armed_delays (t1 ++ t2) = armed_delays t1 ++ armed_delays t2.
Proof. unfold armed_delays. apply flat_map_app. Qed.

(** A hook call that [start] added to the trace is justified. *)
Lemma start_hook_call_justified d sched w added e :
  trace (snd (start d sched w)) = trace w ++ added ->
  In e added ->
  (exists f, e = CalledSuccessHook f) \/ (exists f, e = CalledErrorHook f) ->
  justified sched (awaited_response_class (self w)) e.
Proof.
  intros T I H.
  destruct (start_trace d sched w) as [pre [post [fin [T' [F [P E]]]]]].
  rewrite T' in T. apply app_inv_head in T. subst added.
  apply in_app_or in I. destruct I as [I|I].
  { exfalso. destruct P as [->|[f [_ [_ ->]]]]; simpl in I;
      destruct H as [[f' ->]|[f' ->]]; intuition discriminate. }
  apply in_app_or in I. destruct I as [I|I].
  - rewrite Forall_forall in F. now apply F.
  - exfalso. destruct E as [->|[_ ->]]; simpl in I;
      destruct H as [[f' ->]|[f' ->]]; intuition discriminate.
Qed.

Lemma in_hook_calls e tr :
  In e (hook_calls tr) <->
  In e tr /\ ((exists f, e = CalledSuccessHook f) \/ (exists f, e = CalledErrorHook f)).
Proof.
  unfold hook_calls. rewrite filter_In. split.
  - intros [I B]. split; [exact I|]. destruct e; try discriminate; eauto.
  - intros [I [[f ->]|[f ->]]]; now split.
Qed.

(** Every hook that was invoked during a [start] is explained by a frame
    that the loop received meanwhile: the frame's body is of the awaited
    class, and the success hook was called for a status [E_NO_ERROR], the
    error hook for another status code. No hook is invoked for a frame of
    another class, by the timeout or by [start] itself. *)
Theorem hooks_only_for_received_frames d sched w e :
  In e (hook_calls (trace (snd (start d sched w)))) ->
  In e (hook_calls (trace w)) \/
  exists f,
    In (Datagram f) sched /\
    isinstance f (awaited_response_class (self w)) = true /\
    ((e = CalledSuccessHook f /\ status_code f = Some E_NO_ERROR) \/
     (e = CalledErrorHook f /\
      exists c, status_code f = Some c /\ c <> E_NO_ERROR)).
Proof.
  destruct (start_success_tracks d sched w) as [added [T _]].
  rewrite T, hook_calls_app. intros H.
  apply in_app_or in H. destruct H as [H|H]; [now left|right].
  apply in_hook_calls in H. destruct H as [I C].
  pose proof (start_hook_call_justified d sched w added e T I C) as J.
  destruct C as [[f ->]|[f ->]]; simpl in J.
  - destruct J as [I1 [I2 I3]]. exists f. eauto.
  - destruct J as [I1 [I2 I3]]. exists f. eauto 6.
Qed.

(** [success] is set by a received response only: when a transaction whose
    [success] is [False] has it [True] after [start], the loop received a
    frame of the awaited class with status [E_NO_ERROR]. *)
Theorem success_needs_matching_response d sched w :
  success (self w) = false ->
  success (self (snd (start d sched w))) = true ->
  exists f,
    In (Datagram f) sched /\
    isinstance f (awaited_response_class (self w)) = true /\
    status_code f = Some E_NO_ERROR.
Proof.
  intros S0 S1.
  destruct (start_success_tracks d sched w) as [added [T S]].
  rewrite S0 in S. simpl in S. rewrite S1 in S. symmetry in S.
  unfold success_called in S. apply existsb_exists in S.
  destruct S as [e [I B]]. destruct e; try discriminate.
  assert (J : justified sched (awaited_response_class (self w)) (CalledSuccessHook f))
    by (apply (start_hook_call_justified d sched w added); eauto).
  exists f. exact J.
Qed.

(** A [start] that gets to send hands exactly one frame to the client, the
    normalized frame of [create_knxipframe], and schedules exactly one
    timeout, with the configured delay, whether it then returns, is
    cancelled or stays suspended. *)
Theorem start_sends_one_frame d sched w f :
  create_knxipframe d = inr f ->
  connected w = true ->
  let w' := snd (start d sched w) in
  outbox w' = outbox w ++ [normalize f] /\
  normalized (normalize f) = true /\
  sent_frames (trace w') = sent_frames (trace w) ++ [normalize f] /\
  armed_delays (trace w') =
  armed_delays (trace w) ++ [timeout_in_seconds (self w)].
Proof.
  intros C N w'. subst w'.
  assert (O : outbox (after_arm f w) = outbox w ++ [normalize f]).
  { unfold after_arm, after_send, after_register, udp_send. simpl.
    now rewrite N. }
  pose proof (wait_frame d sched (after_arm f w)) as F.
  destruct (wait_justified d sched (after_arm f w)) as [post [T J]].
  destruct (justified_quiet _ _ _ J) as [Q1 Q2].
  rewrite (after_arm_trace f w N) in T.
  rewrite (start_waits d sched w f C N).
  destruct (wait d sched (after_arm f w)) as [[[]|e|] w4]; cbn [fst snd] in *.
  - split; [|split; [reflexivity|]].
    + change (outbox (teardown w w4)) with (outbox w4).
      now rewrite (lf_outbox _ _ F).
    + rewrite teardown_trace, T, !sent_frames_app, !armed_delays_app, Q1, Q2.
      simpl. now rewrite !app_nil_r.
  - split; [now rewrite (lf_outbox _ _ F)|]. split; [reflexivity|].
    rewrite T, !sent_frames_app, !armed_delays_app, Q1, Q2.
    simpl. now rewrite !app_nil_r.
  - split; [now rewrite (lf_outbox _ _ F)|]. split; [reflexivity|].
    rewrite T, !sent_frames_app, !armed_delays_app, Q1, Q2.
    simpl. now rewrite !app_nil_r.
Qed.

End MoreOfStart.

Section RegistryAndTimers.
Context {K : KnxIp}.

Lemma filter_fresh_route n (cs : list Route) (r0 : Route) :
  Forall (fun r => route_id r < n) cs ->
  route_id r0 = n ->
  List.filter (fun r => negb (Nat.eqb (route_id r) n)) (cs ++ [r0]) = cs.
Proof.
  intros F E. induction F as [|r cs L _ IH]; simpl.
  - now rewrite E, Nat.eqb_refl.
  - destruct (Nat.eqb_spec (route_id r) n) as [X|X]; [lia|].
    simpl. now rewrite IH.
Qed.

(** A [start] that returns leaves the registry of the client as it found
    it: when the handles in use are older than the one [start] is given,
    the registrations of everybody else are all there, in their order, and
    the transaction's own is gone. *)
Theorem start_restores_registry d sched w :
  fresh_routes w ->
  fst (start d sched w) = Done tt ->
  callbacks (snd (start d sched w)) = callbacks w /\
  next_route (snd (start d sched w)) = S (next_route w).
Proof.
  intros F D.
  destruct (start d sched w) as [r w'] eqn:St. simpl in D. subst r.
  destruct (start_done_inv d sched w w' St) as [f [w4 [C [N [W ->]]]]].
  pose proof (wait_frame d sched (after_arm f w)) as L. rewrite W in L.
  simpl in L.
  assert (A : callbacks (after_arm f w) = callbacks w ++ [own_route w] /\
              next_route (after_arm f w) = S (next_route w)).
  { unfold after_arm, after_send, after_register, udp_send. simpl.
    now rewrite N. }
  destruct A as [A1 A2]. simpl. split.
  - unfold teardown. simpl. rewrite (lf_callbacks _ _ L), A1.
    now apply filter_fresh_route.
  - unfold teardown. simpl. now rewrite (lf_next_route _ _ L).
Qed.

Lemma pending_mark_fired t : pending (mark_fired t) = false.
Proof.
  unfold mark_fired. destruct (pending t) eqn:P; [|exact P].
  unfold pending. simpl. apply andb_false_r.
Qed.

Lemma pending_run_due t h : pending (run_due t h) = true -> run_due t h = h.
Proof.
  unfold run_due. destruct (timer_when h <=? t)%Z; [|reflexivity].
  now rewrite pending_mark_fired.
Qed.

Lemma advance_to_quiet_except t h w :
  quiet_except h (timers w) -> quiet_except h (timers (snd (advance_to t w))).
Proof.
  intros Q x I C P. rewrite advance_to_timers in I.
  apply in_map_iff in I. destruct I as [x0 [E I]]. subst x.
  pose proof (pending_run_due _ _ P) as R. rewrite R in *.
  exact (Q x0 I C P).
Qed.

Lemma wait_quiet_except d sched h w :
  quiet_except h (timers w) -> quiet_except h (timers (snd (wait d sched w))).
Proof.
  apply (waiting_rel
           (fun a b => quiet_except h (timers a) -> quiet_except h (timers b))
           d sched).
  - auto.
  - auto.
  - intros ev a _ Q. destruct ev; simpl; auto.
    + now rewrite (cf_timers _ _ (dispatch_frame d f a)).
    + now apply advance_to_quiet_except.
    + now apply advance_to_quiet_except.
  - apply incl_refl.
Qed.

Lemma quiet_after_teardown w0 w :
  quiet_except (next_timer w0) (timers w) -> quiet (timers (teardown w0 w)).
Proof.
  intros Q t I C. unfold teardown in I. simpl in I.
  apply in_map_iff in I. destruct I as [t0 [<- I]].
  unfold cancel_timer in *.
  destruct (Nat.eqb_spec (timer_id t0) (next_timer w0)) as [E|E]; simpl in *.
  - unfold pending. simpl. reflexivity.
  - destruct (pending t0) eqn:P; [|reflexivity].
    exfalso. apply E. now apply Q.
Qed.

(** After a [start] that returned, the transaction's timeout does not run
    any more: it was cancelled, so when the delays pass later on, neither
    the attributes of the transaction nor the trace change. (For a
    transaction that had no timeout of its own waiting before.) *)
Theorem timeout_cannot_fire_after_start d sched w :
  quiet (timers w) ->
  fst (start d sched w) = Done tt ->
  let w' := snd (start d sched w) in
  quiet (timers w') /\
  fst (elapse w') = Done tt /\
  self (snd (elapse w')) = self w' /\
  trace (snd (elapse w')) = trace w'.
Proof.
  intros Q D w'. subst w'.
  destruct (start d sched w) as [r w'] eqn:St. simpl in D. subst r.
  destruct (start_done_inv d sched w w' St) as [f [w4 [C [N [W ->]]]]].
  assert (A : quiet_except (next_timer w) (timers (after_arm f w))).
  { unfold after_arm, after_send, after_register, udp_send. simpl.
    rewrite N. simpl. intros t I Cb P. apply in_app_or in I.
    destruct I as [I|[<-|[]]]; [|reflexivity].
    rewrite (Q t I Cb) in P. discriminate. }
  pose proof (wait_quiet_except d sched _ _ A) as A'. rewrite W in A'.
  simpl in A'. pose proof (quiet_after_teardown w w4 A') as Q'.
  cbn [snd]. split; [exact Q'|].
  rewrite elapse_eq. rewrite fire_all_foreign.
  - now repeat split.
  - apply Forall_forall. intros t I Cb. apply filter_In in I.
    destruct I as [I P]. rewrite (Q' t I Cb) in P. discriminate.
Qed.

(** A transaction is good for one [start]: nothing clears the completion
    event, so a [start] on a completed transaction sends its request,
    does not wait at all, and returns with [success] and the hook calls as
    they were, whatever the loop would have received. *)
Theorem completed_transaction_does_not_wait d sched w f :
  flag w = true ->
  create_knxipframe d = inr f ->
  connected w = true ->
  start d sched w = start d [] w /\
  fst (start d sched w) = Done tt /\
  success (self (snd (start d sched w))) = success (self w) /\
  hook_calls (trace (snd (start d sched w))) = hook_calls (trace w) /\
  outbox (snd (start d sched w)) = outbox w ++ [normalize f].
Proof.
  intros F C N.
  assert (F' : flag (after_arm f w) = true)
    by (unfold flag; now rewrite after_arm_self).
  assert (E : forall s, start d s w = (Done tt, teardown w (after_arm f w))).
  { intros s. rewrite (start_waits d s w f C N).
    now rewrite wait_flag_set by exact F'. }
  rewrite !E. cbn [fst snd]. split; [reflexivity|]. split; [reflexivity|].
  rewrite teardown_self, teardown_trace, after_arm_self, after_arm_trace
    by exact N.
  split; [reflexivity|]. split.
  - rewrite !hook_calls_app. simpl. now rewrite !app_nil_r.
  - unfold teardown, after_arm, after_send, after_register, udp_send. simpl.
    now rewrite N.
Qed.

(** Without a frame to send there is no request: when [create_knxipframe]
    raises, as the one of the base class does with [NotImplementedError],
    [start] raises the same to its caller; nothing was sent, no timeout was
    scheduled and the transaction is not completed. *)
Theorem start_without_frame_raises d e sched w :
  create_knxipframe d = inl e ->
  let r := start d sched w in
  fst r = Raise e /\
  fst (start base sched w) = Raise NotImplementedError /\
  outbox (snd r) = outbox w /\
  timers (snd r) = timers w /\
  self (snd r) = self w /\
  sent_frames (trace (snd r)) = sent_frames (trace w).
Proof.
  intros C r. subst r. rewrite (start_create_raises d sched w e C).
  rewrite (start_create_raises base sched w NotImplementedError eq_refl).
  simpl. repeat split. rewrite sent_frames_app. simpl. apply app_nil_r.
Qed.

(** The handler invokes at most one hook per frame, and never both: one hook
    exactly when the body is of the awaited class and has a status code,
    the success hook for [E_NO_ERROR] and the error hook otherwise. *)
Theorem one_hook_per_frame d f w :
  hook_calls (trace (snd (response_rec_callback d f w))) =
  hook_calls (trace w) ++
  (if isinstance f (awaited_response_class (self w))
   then match status_code f with
        | Some c => [if decide (c = E_NO_ERROR)
                     then CalledSuccessHook f else CalledErrorHook f]
        | None => []
        end
   else []).
Proof.
  destruct (isinstance f (awaited_response_class (self w))) eqn:H.
  - destruct (status_code f) as [c|] eqn:E.
    + destruct (decide (c = E_NO_ERROR)) as [->|N].
      * rewrite response_rec_callback_no_error by assumption.
        rewrite call_hook_trace. simpl.
        rewrite !hook_calls_app, hook_calls_warnings. simpl.
        now rewrite !app_nil_r.
      * rewrite (response_rec_callback_error d f c) by assumption.
        rewrite call_hook_trace. simpl.
        rewrite !hook_calls_app, hook_calls_warnings. simpl.
        now rewrite !app_nil_r.
    + rewrite response_rec_callback_no_status by assumption. simpl.
      now rewrite hook_calls_app.
  - rewrite response_rec_callback_mismatch by assumption. simpl.
    now rewrite hook_calls_app.
Qed.

End RegistryAndTimers.

Section AroundTheWait.
Context {K : KnxIp}.

Lemma fan_out_foreign d rs f w :
  Forall (fun r => route_callback r <> response_rec_callback_of_self) rs ->
  fan_out d rs f w = (Done tt, w).
Proof.
  induction 1 as [|r rs N _ IH]; simpl; [reflexivity|].
  destruct (has_service r f); [|exact IH].
  unfold bind. destruct (route_callback r); [congruence|]. exact IH.
Qed.

Lemma start_done_callbacks d sched w :
  fresh_routes w ->
  fst (start d sched w) = Done tt ->
  callbacks (snd (start d sched w)) = callbacks w.
Proof.
  intros F D.
  destruct (start d sched w) as [r w'] eqn:St. simpl in D. subst r.
  destruct (start_done_inv d sched w w' St) as [f [w4 [C [N [W ->]]]]].
  pose proof (wait_frame d sched (after_arm f w)) as L. rewrite W in L.
  simpl in L.
  assert (A : callbacks (after_arm f w) = callbacks w ++ [own_route w]).
  { unfold after_arm, after_send, after_register, udp_send. simpl.
    now rewrite N. }
  unfold teardown. simpl. rewrite (lf_callbacks _ _ L), A.
  now apply filter_fresh_route.
Qed.

(** Once [start] has returned, a frame that arrives late does not reach the
    transaction any more: its route is gone, so the receive path does not
    call the handler, and attributes and trace stay as they are, whatever
    the frame. (For a client on which the transaction had no registration
    left over from before.) *)
Theorem late_frame_after_start_is_not_delivered d sched w f :
  fresh_routes w ->
  foreign_routes w ->
  fst (start d sched w) = Done tt ->
  dispatch d f (snd (start d sched w)) = (Done tt, snd (start d sched w)).
Proof.
  intros F N D. unfold dispatch, bind, gets.
  rewrite (start_done_callbacks d sched w F D).
  now apply fan_out_foreign.
Qed.

Lemma fan_out_other_class d rs f w :
  isinstance f (awaited_response_class (self w)) = false ->
  self (snd (fan_out d rs f w)) = self w.
Proof.
  revert w. induction rs as [|r rs IH]; intros w H; simpl; [reflexivity|].
  destruct (has_service r f); [|now apply IH].
  unfold bind. destruct (route_callback r); simpl.
  - rewrite response_rec_callback_mismatch by exact H. simpl.
    rewrite IH; [reflexivity|exact H].
  - now apply IH.
Qed.

Lemma wait_other_frames d sched w :
  only_other_frames (awaited_response_class (self w)) sched ->
  flag w = false ->
  fst (wait d sched w) = Blocked /\ self (snd (wait d sched w)) = self w.
Proof.
  revert w. induction sched as [|ev rest IH]; intros w O F.
  - unfold wait, flag in *. simpl. now rewrite F.
  - inversion O as [|ev' rest' [f [-> H]] O']; subst.
    rewrite (wait_step d (Datagram f) rest w F).
    assert (E : self (snd (dispatch d f w)) = self w).
    { unfold dispatch, bind, gets. now apply fan_out_other_class. }
    destruct (IH (snd (dispatch d f w))) as [B S].
    + now rewrite E.
    + unfold flag. now rewrite E.
    + split; [exact B|]. now rewrite S.
Qed.

(** Frames of other classes never release the waiter: while the loop
    receives only frames whose body is not of the awaited class, however
    many, [start] stays suspended on a transaction that is not completed,
    with its attributes as they were after [start_timeout]. *)
Theorem other_frames_do_not_release d sched w f0 :
  create_knxipframe d = inr f0 ->
  connected w = true ->
  flag w = false ->
  only_other_frames (awaited_response_class (self w)) sched ->
  fst (start d sched w) = Blocked /\
  flag (snd (start d sched w)) = false /\
  success (self (snd (start d sched w))) = success (self w).
Proof.
  intros C N F O. rewrite (start_waits d sched w f0 C N).
  destruct (wait_other_frames d sched (after_arm f0 w)) as [B S].
  - now rewrite after_arm_self.
  - unfold flag. now rewrite after_arm_self.
  - destruct (wait d sched (after_arm f0 w)) as [[[]|e|] w4];
      simpl in B; try discriminate.
    cbn [fst snd] in *. unfold flag. rewrite S, after_arm_self by exact N.
    simpl. now split.
Qed.

(** What [start] can raise: the exception of [create_knxipframe], the
    transport error of a client that is not connected, or the
    [CancelledError] of a task that was cancelled while it waited. What a
    hook raises stays with the loop and does not reach the caller of
    [start]. *)
Theorem start_raises_only d sched w e :
  fst (start d sched w) = Raise e ->
  create_knxipframe d = inl e \/
  (e = TransportError /\ connected w = false) \/
  (e = CancelledError /\ In CancelTask sched).
Proof.
  destruct (create_knxipframe d) as [e'|f] eqn:C.
  - rewrite (start_create_raises d sched w e' C). simpl.
    intros [= ->]. now left.
  - destruct (connected w) eqn:N.
    + rewrite (start_waits d sched w f C N).
      pose proof (wait_raise d sched (after_arm f w)) as R.
      destruct (wait d sched (after_arm f w)) as [[[]|e'|] w4]; simpl;
        try discriminate.
      intros [= ->]. destruct (R e eq_refl) as [-> I]. auto.
    + rewrite (start_send_raises d sched w f C N). simpl.
      intros [= <-]. auto.
Qed.

End AroundTheWait.

(** * More about [DateTime]: devices from a configuration *)

Module DateTimeConfigFacts.
Import stdpp.gmap stdpp.strings.
Import DateTime DateTimeConfig.

Section Facts.
Variables GroupAddress Clock : Type.
Variable upper : string -> string.
Variable GroupAddress_new : string + Z -> option GroupAddress.
Variable current_datetime_as_knx : Clock -> list Z.
Variable current_date_as_knx : Clock -> list Z.
Variable current_time_as_knx : Clock -> list Z.

Let from_config := from_config GroupAddress upper GroupAddress_new.
Let __init__ := __init__ GroupAddress GroupAddress_new.
Let broadcast_data :=
  broadcast_data GroupAddress Clock
    current_datetime_as_knx current_date_as_knx current_time_as_knx.
Let encoder :=
  encoder Clock current_datetime_as_knx current_date_as_knx current_time_as_knx.

Lemma broadcast_data_of_member (dev : DateTime GroupAddress) t now :
  broadcast_type GroupAddress dev = Member t ->
  broadcast_data dev now = inr (encoder t now).
Proof.
  intros H. unfold broadcast_data, DateTime.broadcast_data. rewrite H.
  destruct t; repeat (case_decide; try congruence); reflexivity.
Qed.

Lemma init_fields n bt arg dev :
  __init__ n bt arg = inr dev ->
  name GroupAddress dev = n /\
  broadcast_type GroupAddress dev =
  match bt with Some o => o | None => Member TIME end.
Proof.
  unfold __init__, DateTimeConfig.__init__.
  destruct arg; try destruct (GroupAddress_new _);
    intros H; inversion H; now split.
Qed.

Lemma member_of_name_of_member t : member_of_name (name_of_member t) = Some t.
Proof. now destruct t. Qed.

Lemma member_of_name_some s t : member_of_name s = Some t -> s = name_of_member t.
Proof.
  unfold member_of_name.
  destruct (String.eqb_spec s "DATETIME") as [->|_]; [now intros [= <-]|].
  destruct (String.eqb_spec s "DATE") as [->|_]; [now intros [= <-]|].
  destruct (String.eqb_spec s "TIME") as [->|_]; [now intros [= <-]|].
  discriminate.
Qed.

(** Every device that [from_config] returns has a member of
    [DateTimeBroadcastType] as its broadcast type, so its [broadcast_time]
    has a payload to send and never raises [TypeError]: a configuration
    either fails in [from_config] or gives a device that can broadcast. *)
Theorem configured_device_can_broadcast n config dev :
  from_config n config = inr dev ->
  name GroupAddress dev = n /\
  exists t,
    broadcast_type GroupAddress dev = Member t /\
    forall now, broadcast_data dev now = inr (encoder t now) /\
                broadcast_data dev now <> inl TypeError.
Proof.
  unfold from_config, DateTimeConfig.from_config.
  destruct (broadcast_type_string upper config) as [e|s]; [discriminate|].
  destruct (member_of_name s) as [t|]; [|discriminate].
  intros H. apply init_fields in H. destruct H as [N B].
  split; [exact N|]. exists t. split; [exact B|]. intros now.
  rewrite (broadcast_data_of_member dev t now B). now split.
Qed.

(** The broadcast type defaults to the time: a configuration without the
    key [broadcast_type] is read as one with the value ['time'], and
    [__init__] without a broadcast type gives a device that broadcasts the
    time, as [from_config] does when ['time'.upper()] is ['TIME']. *)
Theorem broadcast_type_defaults_to_time n config :
  config !! "broadcast_type" = None ->
  from_config n config = from_config n (<["broadcast_type" := VStr "time"]> config) /\
  (forall arg dev, __init__ n None arg = inr dev ->
                   broadcast_type GroupAddress dev = Member TIME) /\
  (upper "time" = "TIME" ->
   forall dev, from_config n config = inr dev ->
               broadcast_type GroupAddress dev = Member TIME).
Proof.
  intros H. split; [|split].
  - unfold from_config, DateTimeConfig.from_config, broadcast_type_string.
    rewrite H, lookup_insert_eq, lookup_insert_ne by done. reflexivity.
  - intros arg dev I. now apply init_fields in I.
  - intros U dev. unfold from_config, DateTimeConfig.from_config, broadcast_type_string.
    rewrite H, U. simpl. intros I. now apply init_fields in I.
Qed.

(** [from_config] finds the broadcast type by the upper-cased name: when the
    configured string is, in upper case, the name of a member, the device
    is built with that member (the names are told apart: looking up a
    member's name gives the member), and with the configured group
    address. *)
Theorem broadcast_type_read_by_upper_name n config s t :
  config !! "broadcast_type" = Some (VStr s) ->
  upper s = name_of_member t ->
  member_of_name (name_of_member t) = Some t /\
  from_config n config =
  __init__ n (Some (Member t)) (address_arg GroupAddress (config !! "group_address")) /\
  (forall dev, from_config n config = inr dev ->
               broadcast_type GroupAddress dev = Member t).
Proof.
  intros H U. split; [apply member_of_name_of_member|].
  assert (E : from_config n config =
              __init__ n (Some (Member t)) (address_arg GroupAddress (config !! "group_address"))).
  { unfold from_config, DateTimeConfig.from_config, broadcast_type_string.
    now rewrite H, U, member_of_name_of_member. }
  split; [exact E|]. intros dev I. rewrite E in I.
  now apply init_fields in I.
Qed.

(** A broadcast type that is not one of the three names is an error, not a
    default: a string whose upper case is none of DATETIME, DATE and TIME
    makes [from_config] raise [KeyError] with that upper case, and a value
    that is no string makes it raise [AttributeError]; no device is
    built. *)
Theorem unknown_broadcast_type_raises n config :
  (forall s, config !! "broadcast_type" = Some (VStr s) ->
             upper s <> "DATETIME" -> upper s <> "DATE" -> upper s <> "TIME" ->
             from_config n config = inl (KeyError (upper s))) /\
  (forall v, config !! "broadcast_type" = Some v ->
             (forall s, v <> VStr s) ->
             from_config n config = inl (Builtin AttributeError)).
Proof.
  split.
  - intros s H N1 N2 N3.
    unfold from_config, DateTimeConfig.from_config, broadcast_type_string.
    rewrite H. destruct (member_of_name (upper s)) as [t|] eqn:M; [|reflexivity].
    apply member_of_name_some in M. destruct t; simpl in M; congruence.
  - intros v H N.
    unfold from_config, DateTimeConfig.from_config, broadcast_type_string.
    rewrite H. destruct v as [s| |]; [now destruct (N s)| |]; reflexivity.
Qed.

End Facts.
End DateTimeConfigFacts.

(** * [KNXLight]: what Home Assistant is told and what the device is asked *)

Module KNXLightFacts.
Import KNXLight.

Section Facts.
Variable Num : Type.
Variables SUPPORT_BRIGHTNESS SUPPORT_COLOR : Z.
Variable percent : Z -> Num.
Variable color_RGB_to_hs : Z -> Z -> Z -> Num * Num.
Variable color_hsv_to_RGB : list (Arg Num) -> Exn + (Z * Z * Z).
Variable Obj : Type.
Variable int : Obj -> Exn + Z.
Variable device_raises : Command -> option Exn.

Let supported_features := supported_features SUPPORT_BRIGHTNESS SUPPORT_COLOR.
Let hs_color := hs_color Num color_RGB_to_hs.
Let call := call device_raises.
Let requested_brightness := requested_brightness Num Obj int.
Let async_turn_on :=
  async_turn_on Num percent color_RGB_to_hs color_hsv_to_RGB Obj int device_raises.

Lemma land_lor_absorb a b : Z.land (Z.lor a b) b = b.
Proof.
  apply Z.bits_inj'. intros n _. rewrite Z.land_spec, Z.lor_spec.
  destruct (Z.testbit a n), (Z.testbit b n); reflexivity.
Qed.

Lemma land_lor_absorb_l a b : Z.land (Z.lor a b) a = a.
Proof. rewrite Z.lor_comm. apply land_lor_absorb. Qed.

(** The feature flags: a light with a colour address always announces
    brightness together with colour (both bits are set in the flags,
    whatever the values of the two constants), a light with a brightness
    address announces brightness, and a light with neither announces
    nothing. *)
Theorem colour_light_announces_brightness (device : Device) :
  (supports_color device = true ->
     Z.land (supported_features device) SUPPORT_BRIGHTNESS = SUPPORT_BRIGHTNESS /\
     Z.land (supported_features device) SUPPORT_COLOR = SUPPORT_COLOR) /\
  (supports_brightness device = true ->
     Z.land (supported_features device) SUPPORT_BRIGHTNESS = SUPPORT_BRIGHTNESS) /\
  (supports_color device = false -> supports_brightness device = true ->
     supported_features device = SUPPORT_BRIGHTNESS) /\
  (supports_color device = false -> supports_brightness device = false ->
     supported_features device = 0%Z).
Proof.
  unfold supported_features, KNXLight.supported_features.
  split; [|split; [|split]].
  - intros ->. split.
    + rewrite Z.lor_assoc. apply land_lor_absorb.
    + rewrite (Z.lor_comm SUPPORT_COLOR), Z.lor_assoc. apply land_lor_absorb.
  - intros ->. destruct (supports_color device).
    + rewrite Z.lor_assoc. apply land_lor_absorb.
    + rewrite Z.lor_0_l. apply Z.land_diag.
  - intros -> ->. apply Z.lor_0_l.
  - intros -> ->. reflexivity.
Qed.

(** The brightness of a colour light is the largest channel of its colour:
    one of the three values, not below any of them, and within 0..255 when
    they are. It is unknown while the colour is unknown, even when the
    device has a brightness of its own: the colour comes first. *)
Theorem brightness_of_colour_light (device : Device) :
  supports_color device = true ->
  (forall r g b, current_color device = Some (r, g, b) ->
     exists m, brightness device = Some m /\
               (r <= m /\ g <= m /\ b <= m)%Z /\
               (m = r \/ m = g \/ m = b) /\
               ((0 <= r <= 255 /\ 0 <= g <= 255 /\ 0 <= b <= 255)%Z ->
                (0 <= m <= 255)%Z)) /\
  (current_color device = None -> brightness device = None).
Proof.
  intros C. unfold brightness. rewrite C. split.
  - intros r g b ->. exists (max3 (r, g, b)). unfold max3.
    split; [reflexivity|]. lia.
  - now intros ->.
Qed.

(** The value of [brightness] after the first lines of [async_turn_on]:
    what was asked for, or else the current one, or else 255. *)
Let brightness_for (device : Device) (requested : option Z) : Z :=
  match requested with
  | Some b => b
  | None => match brightness device with
            | Some m => m
            | None => 255%Z
            end
  end.


(** What was asked for is what the device is asked to do. A brightness
    alone, on a light with a brightness address, is set to the integer that
    [int(...)] makes of it, also on a colour light. A colour on a colour
    light is converted, together with the brightness that was asked for or
    else the current one or else 255, and set as RGB; the brightness
    address is not used then. The call may raise: [async_turn_on] ends as
    the call of the device ends. A brightness that [int(...)] rejects ends
    [async_turn_on] with that exception before the device is asked
    anything. *)
Theorem turn_on_honours_request (device : Device) (kwargs : TurnOn Num Obj) cs :
  (forall b, supports_brightness device = true ->
             requested_brightness kwargs = inr (Some b) ->
             attr_hs_color Num Obj kwargs = None ->
             async_turn_on device kwargs cs = call (set_brightness b) cs) /\
  (forall hs rgb requested,
             supports_color device = true ->
             attr_hs_color Num Obj kwargs = Some hs ->
             requested_brightness kwargs = inr requested ->
             color_hsv_to_RGB
               (hs ++ [AFloat Num (percent (brightness_for device requested))]) =
             inr rgb ->
             async_turn_on device kwargs cs = call (set_color rgb) cs) /\
  (forall e, requested_brightness kwargs = inl e ->
             async_turn_on device kwargs cs = (Raise e, cs)) /\
  (forall c, device_raises c = None -> call c cs = (Done tt, cs ++ [c])) /\
  (forall c e, device_raises c = Some e -> call c cs = (Raise e, cs ++ [c])).
Proof.
  unfold async_turn_on, KNXLight.async_turn_on, call, KNXLight.call.
  fold requested_brightness.
  split; [|split; [|split; [|split]]].
  - intros b S R H. rewrite R, S, H.
    assert (U : is_some (attr_brightness Num Obj kwargs) = true).
    { unfold requested_brightness, KNXLight.requested_brightness in R.
      destruct (attr_brightness Num Obj kwargs); [reflexivity|discriminate]. }
    rewrite U. reflexivity.
  - intros hs rgb requested S H R E. rewrite R, S, H. simpl.
    rewrite !andb_false_r, orb_true_r. simpl.
    unfold brightness_for, DEFAULT_BRIGHTNESS in *.
    destruct requested as [b|]; simpl in *.
    + now rewrite E.
    + destruct (brightness device); now rewrite E.
  - intros e R. now rewrite R.
  - intros c ->. reflexivity.
  - intros c e ->. reflexivity.
Qed.

(** What the light cannot do is dropped without a word: without arguments,
    on a light with neither a brightness nor a colour address, and for a
    colour asked of a light without a colour address (even together with a
    brightness that the light could set), [async_turn_on] just calls
    [set_on], provided [int(...)] took the brightness if one was given. It
    returns when [set_on] does. *)
Theorem turn_on_falls_back_to_set_on (device : Device) (kwargs : TurnOn Num Obj) cs :
  (attr_brightness Num Obj kwargs = None /\ attr_hs_color Num Obj kwargs = None) \/
  ((exists requested, requested_brightness kwargs = inr requested) /\
   ((supports_brightness device = false /\ supports_color device = false) \/
    (supports_color device = false /\ attr_hs_color Num Obj kwargs <> None))) ->
  async_turn_on device kwargs cs = call set_on cs /\
  (device_raises set_on = None ->
   async_turn_on device kwargs cs = (Done tt, cs ++ [set_on])).
Proof.
  intros H.
  assert (E : async_turn_on device kwargs cs = call set_on cs).
  { unfold async_turn_on, KNXLight.async_turn_on.
    fold requested_brightness.
    destruct H as [[B C]|[[requested R] [[B C]|[C N]]]].
    - unfold requested_brightness, KNXLight.requested_brightness.
      rewrite B, C. simpl. now rewrite !andb_false_r.
    - rewrite R, B, C. reflexivity.
    - rewrite R, C. destruct (attr_hs_color Num Obj kwargs); [|contradiction].
      simpl. now rewrite !andb_false_r. }
  split; [exact E|]. intros D. rewrite E. unfold call, KNXLight.call.
  now rewrite D.
Qed.

(** The default colour has three components: when a brightness is asked of
    a colour light without a brightness address whose colour is unknown,
    the conversion is called with four positional arguments, the three of
    [DEFAULT_COLOR] and the brightness in percent, and the light is set to
    what the conversion returns, or not at all if it raises. *)
Theorem turn_on_with_default_colour (device : Device) (kwargs : TurnOn Num Obj) cs b :
  supports_color device = true ->
  supports_brightness device = false ->
  current_color device = None ->
  requested_brightness kwargs = inr (Some b) ->
  attr_hs_color Num Obj kwargs = None ->
  hs_color device = None /\
  async_turn_on device kwargs cs =
  match color_hsv_to_RGB
          [AInt Num 255; AInt Num 255; AInt Num 255; AFloat Num (percent b)] with
  | inl e => (Raise e, cs)
  | inr rgb => call (set_color rgb) cs
  end.
Proof.
  intros C B N K1 K2.
  assert (U : is_some (attr_brightness Num Obj kwargs) = true).
  { unfold requested_brightness, KNXLight.requested_brightness in K1.
    destruct (attr_brightness Num Obj kwargs); [reflexivity|discriminate]. }
  unfold hs_color, async_turn_on, KNXLight.async_turn_on, KNXLight.hs_color.
  fold requested_brightness.
  rewrite C, B, N, K1, K2, U. simpl. split; [reflexivity|].
  now destruct (color_hsv_to_RGB _).
Qed.

End Facts.
End KNXLightFacts.

(** * The further properties on concrete runs *)

Section MoreRuns.

Lemma hooks_only_for_received_frames_witness :
  In (CalledSuccessHook (response CONNECT_RESPONSE 0))
     (hook_calls (trace (snd (start connect [Datagram (response CONNECT_RESPONSE 0)] world0)))) /\
  exists f, In (Datagram f) [Datagram (response CONNECT_RESPONSE 0)] /\ status_code f = Some E_NO_ERROR.
Proof.
  assert (I : In (CalledSuccessHook (response CONNECT_RESPONSE 0))
                 (hook_calls (trace (snd (start connect [Datagram (response CONNECT_RESPONSE 0)] world0)))))
    by (vm_compute; left; reflexivity).
  split; [exact I|].
  destruct (hooks_only_for_received_frames connect [Datagram (response CONNECT_RESPONSE 0)] world0 _ I)
    as [[]|[f [I1 [_ [[E S]|[E _]]]]]].
  - exists f. now split.
  - discriminate.
Defined.

Lemma success_needs_matching_response_witness :
  success (self world0) = false /\
  success (self (snd (start connect [Datagram (response CONNECT_RESPONSE 0)] world0))) = true /\
  exists f, In (Datagram f) [Datagram (response CONNECT_RESPONSE 0)] /\ status_code f = Some E_NO_ERROR.
Proof.
  assert (S1 : success (self (snd (start connect [Datagram (response CONNECT_RESPONSE 0)] world0))) = true)
    by (vm_compute; reflexivity).
  split; [reflexivity|]. split; [exact S1|].
  destruct (success_needs_matching_response connect [Datagram (response CONNECT_RESPONSE 0)] world0
              eq_refl S1) as [f [I [_ E]]].
  exists f. now split.
Defined.

Lemma start_sends_one_frame_witness :
  create_knxipframe connect = inr request /\
  connected world0 = true /\
  outbox (snd (start connect [CancelTask] world0)) = [normalize request].
Proof.
  split; [reflexivity|]. split; [reflexivity|].
  apply (start_sends_one_frame connect [CancelTask] world0 request);
    reflexivity.
Defined.

Lemma start_restores_registry_witness :
  fresh_routes world0 /\
  fst (start connect [Elapse] world0) = Done tt /\
  callbacks (snd (start connect [Elapse] world0)) = callbacks world0.
Proof.
  assert (F : fresh_routes world0).
  { unfold fresh_routes. simpl. constructor; [simpl; lia|constructor]. }
  assert (D : fst (start connect [Elapse] world0) = Done tt)
    by (vm_compute; reflexivity).
  split; [exact F|]. split; [exact D|].
  apply (start_restores_registry connect [Elapse] world0 F D).
Defined.

Lemma timeout_cannot_fire_after_start_witness :
  quiet (timers world0) /\
  fst (start connect [Datagram (response CONNECT_RESPONSE 0)] world0) = Done tt /\
  trace (snd (elapse (snd (start connect [Datagram (response CONNECT_RESPONSE 0)] world0)))) =
  trace (snd (start connect [Datagram (response CONNECT_RESPONSE 0)] world0)).
Proof.
  assert (Q : quiet (timers world0)) by (intros t []).
  assert (D : fst (start connect [Datagram (response CONNECT_RESPONSE 0)] world0) = Done tt)
    by (vm_compute; reflexivity).
  split; [exact Q|]. split; [exact D|].
  apply (timeout_cannot_fire_after_start connect [Datagram (response CONNECT_RESPONSE 0)] world0 Q D).
Defined.

Lemma completed_transaction_does_not_wait_witness :
  flag (snd (start connect [Elapse] world0)) = true /\
  reported (start connect [Datagram (response CONNECT_RESPONSE 0)] (snd (start connect [Elapse] world0))) =
  (Done tt, false).
Proof.
  assert (F : flag (snd (start connect [Elapse] world0)) = true)
    by (vm_compute; reflexivity).
  split; [exact F|].
  destruct (completed_transaction_does_not_wait connect [Datagram (response CONNECT_RESPONSE 0)]
              (snd (start connect [Elapse] world0)) request F eq_refl)
    as [_ [D [S _]]].
  - vm_compute. reflexivity.
  - unfold reported. rewrite D, S. vm_compute. reflexivity.
Defined.

Lemma start_without_frame_raises_witness :
  create_knxipframe base = inl NotImplementedError /\
  fst (start base [Elapse] world0) = Raise NotImplementedError /\
  outbox (snd (start base [Elapse] world0)) = [].
Proof.
  split; [reflexivity|].
  destruct (start_without_frame_raises base NotImplementedError [Elapse] world0
              eq_refl) as [E [_ [O _]]].
  split; [exact E|exact O].
Defined.

End MoreRuns.

Module ConfigRuns.
Import stdpp.gmap stdpp.strings.
Import DateTime DateTimeConfig SampleConfig DateTimeConfigFacts.

Lemma configured_device_can_broadcast_witness :
  from_config nat upper GroupAddress_new "General.Date" date_config =
  inr (init nat "General.Date" (Some (Member DATE)) (Some 2563%nat)) /\
  broadcast_data nat nat datetime_as_knx date_as_knx time_as_knx
    (init nat "General.Date" (Some (Member DATE)) (Some 2563%nat)) 3723%nat <>
  inl TypeError.
Proof.
  assert (E : from_config nat upper GroupAddress_new "General.Date" date_config =
              inr (init nat "General.Date" (Some (Member DATE)) (Some 2563%nat)))
    by (vm_compute; reflexivity).
  split; [exact E|].
  destruct (configured_device_can_broadcast nat nat upper GroupAddress_new
              datetime_as_knx date_as_knx time_as_knx _ _ _ E)
    as [_ [t [_ B]]].
  apply (B 3723%nat).
Defined.

Lemma broadcast_type_defaults_to_time_witness :
  bare_config !! "broadcast_type" = None /\
  upper "time" = "TIME" /\
  from_config nat upper GroupAddress_new "General.Time" bare_config =
  from_config nat upper GroupAddress_new "General.Time"
    (<["broadcast_type" := VStr "time"]> bare_config).
Proof.
  assert (H : bare_config !! "broadcast_type" = None) by (vm_compute; reflexivity).
  split; [exact H|]. split; [reflexivity|].
  apply (broadcast_type_defaults_to_time nat upper GroupAddress_new
           "General.Time" bare_config H).
Defined.

Lemma broadcast_type_read_by_upper_name_witness :
  date_config !! "broadcast_type" = Some (VStr "Date") /\
  upper "Date" = name_of_member DATE /\
  from_config nat upper GroupAddress_new "General.Date" date_config =
  __init__ nat GroupAddress_new "General.Date" (Some (Member DATE))
    (address_arg nat (date_config !! "group_address")).
Proof.
  assert (H : date_config !! "broadcast_type" = Some (VStr "Date"))
    by (vm_compute; reflexivity).
  split; [exact H|]. split; [reflexivity|].
  apply (broadcast_type_read_by_upper_name nat upper GroupAddress_new
           "General.Date" date_config "Date" DATE H eq_refl).
Defined.

Lemma unknown_broadcast_type_raises_witness :
  odd_config !! "broadcast_type" = Some (VStr "week") /\
  from_config nat upper GroupAddress_new "General.Odd" odd_config =
  inl (KeyError "WEEK").
Proof.
  assert (H : odd_config !! "broadcast_type" = Some (VStr "week"))
    by (vm_compute; reflexivity).
  split; [exact H|].
  apply (proj1 (unknown_broadcast_type_raises nat upper GroupAddress_new
                  "General.Odd" odd_config) "week" H); discriminate.
Defined.

End ConfigRuns.

Module LightRuns.
Import KNXLight SampleLight KNXLightFacts.

Lemma colour_light_announces_brightness_witness :
  supports_color rgb_light = true /\
  Z.land (supported_features SUPPORT_BRIGHTNESS SUPPORT_COLOR rgb_light)
    SUPPORT_BRIGHTNESS = SUPPORT_BRIGHTNESS.
Proof.
  split; [reflexivity|].
  apply (proj1 (colour_light_announces_brightness SUPPORT_BRIGHTNESS SUPPORT_COLOR
                  rgb_light)).
  reflexivity.
Defined.

Lemma brightness_of_colour_light_witness :
  supports_color rgb_light = true /\
  current_color rgb_light = Some (10, 200, 30)%Z /\
  exists m, brightness rgb_light = Some m /\ (200 <= m)%Z.
Proof.
  split; [reflexivity|]. split; [reflexivity|].
  destruct (proj1 (brightness_of_colour_light rgb_light eq_refl)
              10%Z 200%Z 30%Z eq_refl) as [m [B [[_ [G _]] _]]].
  exists m. now split.
Defined.

(** The device does not take the colour: the call is made and raises. *)
Lemma turn_on_honours_request_witness :
  supports_color rgb_light = true /\
  turn_on rgb_light
    {| attr_brightness := Some (Number 100);
       attr_hs_color := Some [AFloat Z 30%Z; AFloat Z 300%Z] |} [] =
  (Raise (UserError 3), [set_color (30, 300, 39)%Z]) /\
  turn_on dimmer {| attr_brightness := Some (Number 100); attr_hs_color := None |} [] =
  (Done tt, [set_brightness 100]) /\
  turn_on dimmer {| attr_brightness := Some Nothing; attr_hs_color := None |} [] =
  (Raise TypeError, []).
Proof.
  split; [reflexivity|].
  destruct (turn_on_honours_request Z percent color_RGB_to_hs color_hsv_to_RGB
              Given int device_raises rgb_light
              {| attr_brightness := Some (Number 100);
                 attr_hs_color := Some [AFloat Z 30%Z; AFloat Z 300%Z] |} [])
    as [_ [C _]].
  destruct (turn_on_honours_request Z percent color_RGB_to_hs color_hsv_to_RGB
              Given int device_raises dimmer
              {| attr_brightness := Some (Number 100); attr_hs_color := None |} [])
    as [B _].
  destruct (turn_on_honours_request Z percent color_RGB_to_hs color_hsv_to_RGB
              Given int device_raises dimmer
              {| attr_brightness := Some Nothing; attr_hs_color := None |} [])
    as [_ [_ [E _]]].
  split; [|split].
  - unfold turn_on.
    rewrite (C [AFloat Z 30%Z; AFloat Z 300%Z] (30, 300, 39)%Z (Some 100%Z));
      reflexivity.
  - unfold turn_on. rewrite (B 100%Z); reflexivity.
  - unfold turn_on. rewrite (E TypeError); reflexivity.
Defined.

Lemma turn_on_falls_back_to_set_on_witness :
  supports_color dimmer = false /\
  turn_on dimmer
    {| attr_brightness := Some (Number 100);
       attr_hs_color := Some [AFloat Z 30%Z; AFloat Z 60%Z] |} [] =
  (Done tt, [set_on]).
Proof.
  split; [reflexivity|].
  apply (turn_on_falls_back_to_set_on Z percent color_RGB_to_hs color_hsv_to_RGB
           Given int device_raises); [|reflexivity].
  right. split; [exists (Some 100%Z); reflexivity|].
  right. split; [reflexivity|discriminate].
Defined.

Lemma turn_on_with_default_colour_witness :
  supports_color dark_rgb_light = true /\
  supports_brightness dark_rgb_light = false /\
  current_color dark_rgb_light = None /\
  turn_on dark_rgb_light
    {| attr_brightness := Some (Number 100); attr_hs_color := None |} [] =
  (Raise TypeError, []).
Proof.
  split; [reflexivity|]. split; [reflexivity|]. split; [reflexivity|].
  destruct (turn_on_with_default_colour Z percent color_RGB_to_hs color_hsv_to_RGB
              Given int device_raises dark_rgb_light
              {| attr_brightness := Some (Number 100); attr_hs_color := None |}
              [] 100%Z eq_refl eq_refl eq_refl eq_refl eq_refl) as [_ E].
  exact E.
Defined.

End LightRuns.

Section LoopRuns.

Lemma late_frame_after_start_is_not_delivered_witness :
  fresh_routes world0 /\
  foreign_routes world0 /\
  fst (start connect [Elapse] world0) = Done tt /\
  success (self (snd (dispatch connect (response CONNECT_RESPONSE 0) (snd (start connect [Elapse] world0))))) =
  false.
Proof.
  assert (F : fresh_routes world0).
  { unfold fresh_routes. simpl. constructor; [simpl; lia|constructor]. }
  assert (N : foreign_routes world0).
  { unfold foreign_routes. simpl. constructor; [discriminate|constructor]. }
  assert (D : fst (start connect [Elapse] world0) = Done tt)
    by (vm_compute; reflexivity).
  split; [exact F|]. split; [exact N|]. split; [exact D|].
  rewrite (late_frame_after_start_is_not_delivered connect [Elapse] world0 (response CONNECT_RESPONSE 0) F N D).
  vm_compute. reflexivity.
Defined.

Lemma other_frames_do_not_release_witness :
  only_other_frames (awaited_response_class (self world0))
    [Datagram (response DISCONNECT_RESPONSE 0); Datagram (response DISCONNECT_RESPONSE 0)] /\
  fst (start connect [Datagram (response DISCONNECT_RESPONSE 0); Datagram (response DISCONNECT_RESPONSE 0)] world0) = Blocked.
Proof.
  assert (O : only_other_frames (awaited_response_class (self world0))
                [Datagram (response DISCONNECT_RESPONSE 0); Datagram (response DISCONNECT_RESPONSE 0)]).
  { repeat constructor; exists (response DISCONNECT_RESPONSE 0); split; reflexivity. }
  split; [exact O|].
  apply (other_frames_do_not_release connect _ world0 request
           eq_refl eq_refl eq_refl O).
Defined.

Lemma start_raises_only_witness :
  fst (start faulty [Datagram (response DISCONNECT_RESPONSE 0); CancelTask] world0) = Raise CancelledError /\
  In (@CancelTask knxip) [Datagram (response DISCONNECT_RESPONSE 0); CancelTask].
Proof.
  assert (R : fst (start faulty [Datagram (response DISCONNECT_RESPONSE 0); CancelTask] world0) =
              Raise CancelledError) by (vm_compute; reflexivity).
  split; [exact R|].
  destruct (start_raises_only faulty _ world0 CancelledError R)
    as [C|[[C _]|[_ I]]]; [discriminate C|discriminate C|exact I].
Defined.

End LoopRuns.

(** * Cancellation and the clock *)

Section OnTheClock.
Context {K : KnxIp}.

Lemma run_due_cancelled t h : timer_cancelled (run_due t h) = timer_cancelled h.
Proof.
  unfold run_due, mark_fired.
  destruct (timer_when h <=? t)%Z; [|reflexivity].
  now destruct (pending h).
Qed.

Lemma advance_to_cancelled t w :
  cancelled_handles (snd (advance_to t w)) = cancelled_handles w.
Proof.
  unfold cancelled_handles. rewrite advance_to_timers, map_map.
  apply map_ext. intros h. apply run_due_cancelled.
Qed.

Lemma loop_step_cancelled d ev w :
  cancelled_handles (loop_step d ev w) = cancelled_handles w.
Proof.
  destruct ev; simpl; try reflexivity.
  - unfold cancelled_handles. now rewrite (cf_timers _ _ (dispatch_frame d f w)).
  - apply advance_to_cancelled.
  - apply advance_to_cancelled.
Qed.

Lemma wait_cancelled d sched w :
  cancelled_handles (snd (wait d sched w)) = cancelled_handles w.
Proof.
  apply (waiting_rel (fun a b => cancelled_handles b = cancelled_handles a) d sched).
  - reflexivity.
  - intros a b c H1 H2. now rewrite H2.
  - intros ev a _. apply loop_step_cancelled.
  - apply incl_refl.
Qed.

Lemma teardown_effects_app t1 t2 :
  teardown_effects (t1 ++ t2) = teardown_effects t1 ++ teardown_effects t2.
Proof. unfold teardown_effects. apply filter_app. Qed.

Lemma justified_no_teardown s cls post :
  Forall (justified s cls) post -> teardown_effects post = [].
Proof.
  induction 1 as [|e post J _ IH]; [reflexivity|].
  destruct e; simpl in *; try contradiction; exact IH.
Qed.

Lemma armed_with_armed h D w : armed_with h D w -> armed w.
Proof. intros [t [I [_ [P [C _]]]]]. exists t. auto. Qed.

Lemma armed_with_pending h D w : armed_with h D w -> timer_pending h w = true.
Proof.
  intros [t [I [E [P _]]]]. unfold timer_pending. apply existsb_exists.
  exists t. split; [exact I|]. rewrite E, Nat.eqb_refl, P. reflexivity.
Qed.

Lemma armed_with_callback_frame h D w w' :
  callback_frame w w' -> armed_with h D w -> armed_with h D w'.
Proof. intros F [t A]. exists t. now rewrite (cf_timers _ _ F). Qed.

(** When the clock gets to [t], a timeout due by then has run and has set
    the event; one that is due later is still waiting. *)
Lemma advance_to_armed_with h D t w :
  armed_with h D w ->
  ((D <= t)%Z -> flag (snd (advance_to t w)) = true) /\
  ((t < D)%Z -> armed_with h D (snd (advance_to t w))).
Proof.
  intros [x [I [E [P [C W]]]]]. split; intros L.
  - rewrite advance_to_eq. apply fire_all_sets_flag.
    exists x. split; [|exact C]. apply filter_In. split; [exact I|].
    unfold due. rewrite P. simpl. apply Z.leb_le. lia.
  - exists x. rewrite advance_to_timers. split; [|auto].
    apply in_map_iff. exists x. split; [|exact I].
    unfold run_due. destruct (Z.leb_spec (timer_when x) t); [lia|reflexivity].
Qed.

Lemma loop_step_armed_with d ev h D w :
  armed_with h D w \/ flag w = true ->
  armed_with h D (loop_step d ev w) \/ flag (loop_step d ev w) = true.
Proof.
  intros [A|F]; [|right; apply (lf_flag _ _ (loop_step_frame d ev w) F)].
  destruct ev; simpl; auto.
  - left. eapply armed_with_callback_frame; [apply dispatch_frame|exact A].
  - right. apply elapse_armed_sets_flag. eapply armed_with_armed; eauto.
  - destruct (advance_to_armed_with h D (clock w + Z.max 0 dt) w A) as [Y N].
    unfold pass, bind, gets.
    destruct (Z.le_gt_cases D (clock w + Z.max 0 dt)); [right|left]; auto.
Qed.

Lemma wait_armed_with d sched h D w :
  armed_with h D w \/ flag w = true ->
  armed_with h D (snd (wait d sched w)) \/ flag (snd (wait d sched w)) = true.
Proof.
  apply (waiting_rel
           (fun a b => armed_with h D a \/ flag a = true ->
                       armed_with h D b \/ flag b = true) d sched).
  - auto.
  - auto.
  - intros ev a _. apply loop_step_armed_with.
  - apply incl_refl.
Qed.

Lemma after_arm_armed_with f w :
  connected w = true ->
  armed_with (next_timer w) (clock w + timeout_in_seconds (self w)) (after_arm f w).
Proof.
  intros N. unfold armed_with, after_arm, after_send, after_register, udp_send.
  simpl. rewrite N. simpl. eexists. split.
  - apply in_or_app. right. left. reflexivity.
  - repeat split.
Qed.

Lemma after_arm_clock f w : connected w = true -> clock (after_arm f w) = clock w.
Proof.
  intros N. unfold after_arm, after_send, after_register, udp_send. simpl.
  now rewrite N.
Qed.

Lemma elapse_reaches D t sched : In Elapse sched -> clock_reaches D t sched = true.
Proof.
  revert t. induction sched as [|ev rest IH]; intros t I; [destruct I|].
  destruct I as [->|I]; [reflexivity|].
  destruct ev; simpl; auto. rewrite IH by exact I. apply orb_true_r.
Qed.

(** One event on the way to the deadline: the event is set, or the timeout
    still waits and the clock still gets there. *)
Lemma step_reaches d ev rest h D w :
  armed_with h D w ->
  clock_reaches D (clock w) (ev :: rest) = true ->
  flag (loop_step d ev w) = true \/
  (armed_with h D (loop_step d ev w) /\
   clock_reaches D (clock (loop_step d ev w)) rest = true).
Proof.
  intros A R. destruct ev; simpl in *.
  - right. split.
    + eapply armed_with_callback_frame; [apply dispatch_frame|exact A].
    + now rewrite (cf_clock _ _ (dispatch_frame d f w)).
  - left. apply elapse_armed_sets_flag. eapply armed_with_armed; eauto.
  - right. now split.
  - destruct (advance_to_armed_with h D (clock w + Z.max 0 dt) w A) as [Y N].
    destruct (Z.leb_spec D (clock w + Z.max 0 dt)) as [L|L].
    + left. now apply Y.
    + right. split; [now apply N|]. now rewrite pass_clock.
  - right. now split.
Qed.

Lemma waiting_reaches d h D sched : forall held doomed w,
  armed_with h D w \/ flag w = true ->
  clock_reaches D (clock w) sched = true ->
  fst (waiting d held doomed sched w) <> Blocked.
Proof.
  induction sched as [|ev rest IH]; intros held doomed w A R; [discriminate|].
  destruct A as [A|F]; [|now apply waiting_flag_not_blocked].
  assert (N : forall k dm, fst (waiting d k dm rest (loop_step d ev w)) <> Blocked).
  { intros k dm. destruct (step_reaches d ev rest h D w A R) as [F|[A' R']].
    - now apply waiting_flag_not_blocked.
    - apply IH; auto. }
  simpl. destruct held as [|k].
  - destruct doomed; [discriminate|].
    destruct (response_received_or_timeout (self w)); [discriminate|].
    destruct ev; try discriminate; apply N.
  - destruct ev; apply N.
Qed.

(** Before the deadline nothing releases an idle waiter. *)
Lemma pass_before_deadline D dt w :
  sleeping_until D w ->
  (clock w + Z.max 0 dt < D)%Z ->
  self (snd (pass dt w)) = self w /\ sleeping_until D (snd (pass dt w)).
Proof.
  intros S L. unfold pass, bind, gets. split.
  - rewrite advance_to_eq. rewrite fire_all_foreign; [reflexivity|].
    apply Forall_forall. intros x I C. apply filter_In in I.
    destruct I as [I Du]. unfold due in Du. apply andb_true_iff in Du.
    destruct Du as [P W]. apply Z.leb_le in W.
    pose proof (S x I C P). lia.
  - intros x I C P. rewrite advance_to_timers in I.
    apply in_map_iff in I. destruct I as [x0 [E I]]. subst x.
    pose proof (pending_run_due _ _ P) as R. rewrite R in *.
    exact (S x0 I C P).
Qed.

Lemma wait_idle d D cls sched : forall w,
  idle_loop cls sched ->
  awaited_response_class (self w) = cls ->
  flag w = false ->
  sleeping_until D w ->
  clock_reaches D (clock w) sched = false ->
  fst (wait d sched w) = Blocked /\ self (snd (wait d sched w)) = self w.
Proof.
  induction sched as [|ev rest IH]; intros w I A F S R.
  - unfold wait, flag in *. simpl. now rewrite F.
  - inversion I as [|ev' rest' [[dt ->]|[f [-> H]]] I']; subst.
    + rewrite (wait_step d (Pass dt) rest w F). simpl in R.
      apply orb_false_iff in R. destruct R as [L R]. apply Z.leb_gt in L.
      destruct (pass_before_deadline D dt w S L) as [E S'].
      destruct (IH (snd (pass dt w))) as [B E']; auto.
      * now rewrite E.
      * unfold flag. now rewrite E.
      * now rewrite pass_clock.
      * split; [exact B|]. now rewrite E'.
    + rewrite (wait_step d (Datagram f) rest w F). simpl in R.
      assert (E : self (snd (dispatch d f w)) = self w).
      { unfold dispatch, bind, gets. now apply fan_out_other_class. }
      pose proof (dispatch_frame d f w) as C.
      destruct (IH (snd (dispatch d f w))) as [B E']; auto.
      * now rewrite E.
      * unfold flag. now rewrite E.
      * intros x. rewrite (cf_timers _ _ C). apply S.
      * now rewrite (cf_clock _ _ C).
      * split; [exact B|]. now rewrite E'.
Qed.

End OnTheClock.

Section ClaimsOnTheClock.
Context {K : KnxIp}.

(** C4, amended. When the wait is released by the completion event and the
    task goes on normally, [start] cancels the timeout handle and then
    unregisters its route, in this order and as its last two effects,
    before it returns. There is no teardown on the way out of an exception:
    once the request is sent, the only exception is the [CancelledError] of
    a task that was cancelled while it was suspended, be it before or after
    the event was set, and [start] then ends with the route still
    registered, no handle cancelled and no teardown effect in the trace;
    the timeout is still armed unless it has run and set the event. *)
Theorem teardown_on_release_only d sched w f :
  create_knxipframe d = inr f ->
  connected w = true ->
  let r := start d sched w in
  (fst r = Done tt ->
     teardown_done w (snd r) /\
     exists pre, trace (snd r) =
                 pre ++ [Disarmed (next_timer w); Unregistered (next_route w)]) /\
  (forall e, fst r = Raise e ->
     e = CancelledError /\
     In CancelTask sched /\
     registered (next_route w) (snd r) = true /\
     cancelled_handles (snd r) = cancelled_handles w ++ [false] /\
     teardown_effects (trace (snd r)) = teardown_effects (trace w) /\
     (flag (snd r) = false -> timer_pending (next_timer w) (snd r) = true)).
Proof.
  intros C N r. subst r. rewrite (start_waits d sched w f C N).
  pose proof (wait_raise d sched (after_arm f w)) as R.
  pose proof (wait_frame d sched (after_arm f w)) as F.
  pose proof (wait_cancelled d sched (after_arm f w)) as Ca.
  pose proof (wait_armed_with d sched _ _ (after_arm f w)
                (or_introl (after_arm_armed_with f w N))) as A.
  destruct (wait_justified d sched (after_arm f w)) as [post [T J]].
  destruct (wait d sched (after_arm f w)) as [[[]|e|] w4]; cbn [fst snd] in *.
  - split; [|discriminate]. intros _. split.
    + split; [apply unregistered_after_teardown | apply disarmed_after_teardown].
    + exists (trace w4). apply teardown_trace.
  - split; [discriminate|]. intros e' E. inversion E; subst e'.
    destruct (R e eq_refl) as [-> I].
    split; [reflexivity|]. split; [exact I|]. split; [|split; [|split]].
    + rewrite (registered_callbacks _ _ _ (lf_callbacks _ _ F)).
      now apply registered_after_arm.
    + rewrite Ca. unfold cancelled_handles, after_arm, after_send,
        after_register, udp_send. simpl. rewrite N. simpl.
      now rewrite map_app.
    + rewrite T, (after_arm_trace f w N), !teardown_effects_app.
      rewrite (justified_no_teardown _ _ _ J). simpl. now rewrite !app_nil_r.
    + intros Fl. destruct A as [A|A]; [|congruence].
      now apply (armed_with_pending _ _ _ A).
  - split; discriminate.
Qed.

(** C8: the wait of [start] ends at the configured timeout at the latest.
    The timeout is due [timeout_in_seconds] after [start_timeout] and is
    cancelled only after the wait. So when the loop gets to run what is due
    with its clock at or past that time (or when all delays have passed),
    [start] is not left suspended, whatever frames arrive before: the
    event was set by a response or else is set by the timeout. With the
    request sent and the task not cancelled, [start] returns, with the
    event set. The bound is the configured one: while the clock stays
    before it and only frames of other classes arrive, nothing releases
    the waiter. *)
Theorem wait_never_hangs d w :
  let deadline := (clock w + timeout_in_seconds (self w))%Z in
  (forall sched,
     In Elapse sched \/ clock_reaches deadline (clock w) sched = true ->
     fst (start d sched w) <> Blocked /\
     (forall f, create_knxipframe d = inr f -> connected w = true ->
                ~ In CancelTask sched ->
                fst (start d sched w) = Done tt /\
                flag (snd (start d sched w)) = true)) /\
  (forall sched f,
     create_knxipframe d = inr f -> connected w = true ->
     flag w = false -> quiet (timers w) ->
     idle_loop (awaited_response_class (self w)) sched ->
     clock_reaches deadline (clock w) sched = false ->
     fst (start d sched w) = Blocked /\
     flag (snd (start d sched w)) = false).
Proof.
  intros deadline. split.
  - intros sched H.
    assert (Re : clock_reaches deadline (clock w) sched = true)
      by (destruct H as [I|Re]; [now apply elapse_reaches|exact Re]).
    assert (G : forall f, create_knxipframe d = inr f -> connected w = true ->
                  fst (start d sched w) <> Blocked /\
                  (~ In CancelTask sched ->
                   fst (start d sched w) = Done tt /\
                   flag (snd (start d sched w)) = true)).
    { intros f C N. rewrite (start_waits d sched w f C N).
      assert (B : fst (wait d sched (after_arm f w)) <> Blocked).
      { apply (waiting_reaches d (next_timer w) deadline).
        - left. now apply after_arm_armed_with.
        - now rewrite after_arm_clock. }
      pose proof (wait_raise d sched (after_arm f w)) as R.
      pose proof (wait_done_flag d sched (after_arm f w)) as D.
      destruct (wait d sched (after_arm f w)) as [[[]|e|] w4]; cbn [fst snd] in *.
      - split; [discriminate|]. intros _. split; [reflexivity|].
        unfold flag in *. rewrite teardown_self. now apply D.
      - split; [discriminate|]. intros NC. destruct (R e eq_refl) as [_ IC].
        contradiction.
      - contradiction. }
    split.
    + destruct (create_knxipframe d) as [e|f] eqn:C.
      * now rewrite (start_create_raises d sched w e C).
      * destruct (connected w) eqn:N.
        -- apply (G f eq_refl eq_refl).
        -- now rewrite (start_send_raises d sched w f C N).
    + intros f C N NC. apply (G f C N). exact NC.
  - intros sched f C N F Q I Re.
    rewrite (start_waits d sched w f C N).
    destruct (wait_idle d deadline (awaited_response_class (self w)) sched
                (after_arm f w)) as [B E]; auto.
    + now rewrite after_arm_self.
    + unfold flag. now rewrite after_arm_self.
    + intros x Ix Cx Px.
      unfold after_arm, after_send, after_register, udp_send in Ix.
      simpl in Ix. rewrite N in Ix. simpl in Ix. apply in_app_or in Ix.
      destruct Ix as [Ix|[<-|[]]].
      * rewrite (Q x Ix Cx) in Px. discriminate.
      * simpl. unfold deadline. lia.
    + now rewrite after_arm_clock.
    + destruct (wait d sched (after_arm f w)) as [[[]|e|] w4];
        simpl in B; try discriminate.
      cbn [fst snd] in *. split; [reflexivity|].
      unfold flag in *. rewrite E, after_arm_self by exact N. exact F.
Qed.

End ClaimsOnTheClock.

Section RunsOnTheClock.

(** The timeout sets the event and the task is cancelled before it runs
    again: [start] ends with [CancelledError] and without teardown. *)
Lemma teardown_on_release_only_witness :
  create_knxipframe connect = inr request /\
  connected world0 = true /\
  teardown_done world0 (snd (start connect [Elapse] world0)) /\
  fst (start connect [Burst 2; Elapse; CancelTask] world0) = Raise CancelledError /\
  registered 1 (snd (start connect [Burst 2; Elapse; CancelTask] world0)) = true.
Proof.
  split; [reflexivity|]. split; [reflexivity|].
  destruct (teardown_on_release_only connect [Elapse] world0 request
              eq_refl eq_refl) as [D _].
  destruct (teardown_on_release_only connect [Burst 2; Elapse; CancelTask]
              world0 request eq_refl eq_refl) as [_ R].
  assert (E : fst (start connect [Burst 2; Elapse; CancelTask] world0) =
              Raise CancelledError) by (vm_compute; reflexivity).
  split; [apply D; vm_compute; reflexivity|]. split; [exact E|].
  apply (R CancelledError E).
Defined.

Lemma wait_never_hangs_witness :
  clock_reaches (clock world0 + timeout_in_seconds (self world0)) (clock world0)
    [Datagram (response DISCONNECT_RESPONSE 0); Pass 1] = true /\
  fst (start faulty [Datagram (response DISCONNECT_RESPONSE 0); Pass 1] world0) <>
  Blocked /\
  fst (start faulty [Pass 0; Datagram (response DISCONNECT_RESPONSE 0)] world0) =
  Blocked.
Proof.
  destruct (wait_never_hangs faulty world0) as [U L].
  split; [reflexivity|]. split.
  - apply (U [Datagram (response DISCONNECT_RESPONSE 0); Pass 1]).
    right. reflexivity.
  - apply (L [Pass 0; Datagram (response DISCONNECT_RESPONSE 0)] request);
      try reflexivity.
    + intros t [].
    + constructor; [left; now exists 0%Z|].
      constructor; [|constructor].
      right. exists (response DISCONNECT_RESPONSE 0). now split.
Defined.

(** C6 fails as stated: after a response with [E_NO_ERROR], a response with
    [E_NO_MORE_CONNECTIONS] invokes the error hook and leaves the
    transaction successful. *)
Lemma error_after_success_is_no_failure :
  ~ error_status_gives_failure connect
      (snd (response_rec_callback connect (response CONNECT_RESPONSE 0) world0))
      (response CONNECT_RESPONSE E_NO_MORE_CONNECTIONS).
Proof.
  unfold error_status_gives_failure. intros H.
  assert (O : outcome
                (snd (response_rec_callback connect
                        (response CONNECT_RESPONSE E_NO_MORE_CONNECTIONS)
                        (snd (response_rec_callback connect
                                (response CONNECT_RESPONSE 0) world0)))) =
              Unsuccessful).
  { apply H; [reflexivity|]. exists E_NO_MORE_CONNECTIONS.
    split; [reflexivity|discriminate]. }
  vm_compute in O. discriminate.
Qed.

End RunsOnTheClock.
